(** * Booking admission check of the Car Rental API

    A shallow embedding of [create_booking] (src/main.py) with the
    [Booking] payload of src/schemas.py, the parts of Python's
    [datetime.date] and of [bson.ObjectId] the function calls, and a
    document store with [find_one] and [create_document]. *)

From Stdlib Require Import ZArith Lia Ascii String DecimalString.
From stdpp Require Import base option list gmap strings.

Local Open Scope Z_scope.

(** ** Calendar dates: the part of [datetime.date] the handler uses *)

Module datetime.

Record date := mkdate { year : Z; month : Z; day : Z }.

(** [_is_leap]: year % 4 == 0 and (year % 100 != 0 or year % 400 == 0) *)
Definition is_leap (y : Z) : bool :=
  (y mod 4 =? 0) && (negb (y mod 100 =? 0) || (y mod 400 =? 0)).

(** [_DAYS_IN_MONTH], by index 1..12 *)
Definition DAYS_IN_MONTH (m : Z) : Z :=
  match m with
  | 1 => 31 | 2 => 28 | 3 => 31 | 4 => 30 | 5 => 31 | 6 => 30
  | 7 => 31 | 8 => 31 | 9 => 30 | 10 => 31 | 11 => 30 | 12 => 31
  | _ => -1
  end.

(** [_DAYS_BEFORE_MONTH], by index 1..12 *)
Definition DAYS_BEFORE_MONTH (m : Z) : Z :=
  match m with
  | 1 => 0 | 2 => 31 | 3 => 59 | 4 => 90 | 5 => 120 | 6 => 151
  | 7 => 181 | 8 => 212 | 9 => 243 | 10 => 273 | 11 => 304 | 12 => 334
  | _ => -1
  end.

Definition days_in_month (y m : Z) : Z :=
  if (m =? 2) && is_leap y then 29 else DAYS_IN_MONTH m.

Definition days_before_year (y : Z) : Z :=
  let y' := y - 1 in y' * 365 + y' / 4 - y' / 100 + y' / 400.

Definition days_before_month (y m : Z) : Z :=
  DAYS_BEFORE_MONTH m + (if (2 <? m) && is_leap y then 1 else 0).

(** [_ymd2ord] and [date.toordinal] *)
Definition ymd2ord (y m d : Z) : Z :=
  days_before_year y + days_before_month y m + d.

Definition toordinal (d : date) : Z := ymd2ord (year d) (month d) (day d).

(** What the constructor of [date] checks ([_check_date_fields]):
    MINYEAR = 1, MAXYEAR = 9999. *)
Definition valid (d : date) : bool :=
  (1 <=? year d) && (year d <=? 9999) &&
  (1 <=? month d) && (month d <=? 12) &&
  (1 <=? day d) && (day d <=? days_in_month (year d) (month d)).

(** [date._cmp]: comparison of the (year, month, day) tuples *)
Definition cmp (a b : date) : comparison :=
  match year a ?= year b with
  | Eq => match month a ?= month b with
          | Eq => day a ?= day b
          | c => c
          end
  | c => c
  end.

(** [a < b] and [a <= b] on dates *)
Definition lt (a b : date) : bool :=
  match cmp a b with Lt => true | _ => false end.
Definition le (a b : date) : bool :=
  match cmp a b with Gt => false | _ => true end.

(** [(a - b).days] *)
Definition sub_days (a b : date) : Z := toordinal a - toordinal b.

(** One decimal digit as a character. *)
Definition digit (k : Z) : ascii := ascii_of_N (Z.to_N (48 + k)).

(** The [w] low decimal digits of [n], most significant first, in front
    of [rest]: the conversion "%0wd" for 0 <= n < 10^w. *)
Fixpoint zpad (w : nat) (n : Z) (rest : string) : string :=
  match w with
  | O => rest
  | S w' => zpad w' (n / 10) (String (digit (n mod 10)) rest)
  end.

(** [date.isoformat]: "%04d-%02d-%02d" % (year, month, day) *)
Definition isoformat (d : date) : string :=
  zpad 4 (year d) (String "-" (zpad 2 (month d) (String "-" (zpad 2 (day d) EmptyString)))).

(** Reading back a canonical date string, used to give stored records
    their calendar meaning. *)
Definition digit_val (c : ascii) : option Z :=
  let n := Z.of_N (N_of_ascii c) in
  if (48 <=? n) && (n <=? 57) then Some (n - 48) else None.

Definition fromisoformat (s : string) : option date :=
  match s with
  | String y3 (String y2 (String y1 (String y0 (String "-"
    (String m1 (String m0 (String "-" (String d1 (String d0 EmptyString))))))))) =>
      match digit_val y3, digit_val y2, digit_val y1, digit_val y0,
            digit_val m1, digit_val m0, digit_val d1, digit_val d0 with
      | Some a, Some b, Some c, Some e, Some f, Some g, Some h, Some i =>
          let d := mkdate (1000 * a + 100 * b + 10 * c + e) (10 * f + g) (10 * h + i) in
          if valid d then Some d else None
      | _, _, _, _, _, _, _, _ => None
      end
  | _ => None
  end.

End datetime.

(** ** Object identifiers: the part of [bson.ObjectId] the handler uses *)

Module bson.

(** The bytes an [ObjectId] wraps. *)
Definition ObjectId := list Z.

(** [bson.errors.InvalidId] *)
Inductive InvalidId := InvalidId_of (oid : string).

Definition hex_val (c : ascii) : option Z :=
  let n := Z.of_N (N_of_ascii c) in
  if (48 <=? n) && (n <=? 57) then Some (n - 48)
  else if (97 <=? n) && (n <=? 102) then Some (n - 87)
  else if (65 <=? n) && (n <=? 70) then Some (n - 55)
  else None.

(** [Py_ISSPACE]: space, \t, \n, \v, \f, \r *)
Definition is_space (c : ascii) : bool :=
  let n := Z.of_N (N_of_ascii c) in
  (n =? 32) || ((9 <=? n) && (n <=? 13)).

(** [bytes.fromhex]: pairs of hexadecimal digits, white space skipped in
    front of a pair; [None] stands for its ValueError. *)
Fixpoint fromhex (s : string) : option (list Z) :=
  match s with
  | EmptyString => Some []
  | String c s' =>
      if is_space c then fromhex s'
      else match hex_val c, s' with
           | Some hi, String c' s'' =>
               match hex_val c' with
               | Some lo => cons (16 * hi + lo) <$> fromhex s''
               | None => None
               end
           | _, _ => None
           end
  end.

(** [ObjectId(oid)] on a [str]: the length must be 24 and the text must
    parse as hexadecimal, otherwise InvalidId is raised.  (Python counts
    code points where [String.length] counts bytes; the two differ only on
    text that is not ASCII, which [fromhex] refuses.) *)
Definition ObjectId_init (oid : string) : InvalidId + ObjectId :=
  if (String.length oid =? 24)%nat then
    match fromhex oid with
    | Some b => inr b
    | None => inl (InvalidId_of oid)
    end
  else inl (InvalidId_of oid).

(** [ObjectId.is_valid]: false on an empty value, otherwise whether the
    constructor accepts it. *)
Definition is_valid (oid : string) : bool :=
  if String.eqb oid EmptyString then false
  else match ObjectId_init oid with
       | inr _ => true
       | inl _ => false
       end.

Definition hex_digit (k : Z) : ascii :=
  if k <? 10 then ascii_of_N (Z.to_N (48 + k)) else ascii_of_N (Z.to_N (87 + k)).

(** [str(ObjectId)]: two lower-case hexadecimal digits per byte *)
Fixpoint to_str (o : ObjectId) : string :=
  match o with
  | [] => EmptyString
  | b :: o' => String (hex_digit (b / 16)) (String (hex_digit (b mod 16)) (to_str o'))
  end.

End bson.

(** ** The document store *)

Module mongo.

Inductive Value :=
| VNull
| VStr (s : string)
| VInt (n : Z)
| VDate (d : datetime.date)
| VOid (o : bson.ObjectId).

#[export] Instance date_eq_dec : EqDecision datetime.date.
Proof. solve_decision. Defined.

#[export] Instance Value_eq_dec : EqDecision Value.
Proof. solve_decision. Defined.

(** A document is a dict from field names to values. *)
Abbreviation Doc := (gmap string Value).

(** The query documents the handler builds: equality on a field, range
    comparison of a field with a string, conjunction. *)
Inductive Filter :=
| FEq (field : string) (v : Value)
| FLte (field : string) (bound : string)
| FGte (field : string) (bound : string)
| FAnd (fs : list Filter).

(** Whether a document matches a query.  A range operator whose operand
    is a string matches string fields only, and compares them byte by
    byte. *)
Fixpoint matches (f : Filter) (d : Doc) : bool :=
  match f with
  | FEq field v =>
      match d !! field with
      | Some x => bool_decide (x = v)
      | None => false
      end
  | FLte field bound =>
      match d !! field with
      | Some (VStr x) => String.leb x bound
      | _ => false
      end
  | FGte field bound =>
      match d !! field with
      | Some (VStr x) => String.leb bound x
      | _ => false
      end
  | FAnd fs => forallb (fun f' => matches f' d) fs
  end.

(** [db]: the collections by name, and the counter the store draws the
    identifiers of inserted documents from. *)
Record Database := mkdb {
  collections : gmap string (list Doc);
  id_counter : Z
}.

(** [db[name]]: a collection never written to is empty. *)
Definition coll (db : Database) (name : string) : list Doc :=
  default [] (collections db !! name).

(** What a request can raise. *)
Inductive Exception :=
| HTTPException (status_code : Z) (detail : string)
| InvalidIdError (e : bson.InvalidId).

Inductive Result (A : Type) :=
| Return (a : A)
| Raise (e : Exception).
Arguments Return {A} a.
Arguments Raise {A} e.

(** Computations on the store: the outcome and the store afterwards. *)
Definition M (A : Type) : Type := Database -> Result A * Database.

#[export] Instance M_ret : MRet M := fun A a db => (Return a, db).
#[export] Instance M_bind : MBind M := fun A B k m db =>
  match m db with
  | (Return a, db') => k a db'
  | (Raise e, db') => (Raise e, db')
  end.

Definition raise {A} (e : Exception) : M A := fun db => (Raise e, db).

(** [db[name].find_one(filter)]: the first matching document. *)
Definition find_one (name : string) (f : Filter) : M (option Doc) :=
  fun db => (Return (List.find (matches f) (coll db name)), db).

(** Modelled from the spec: the identifiers are store-assigned and opaque;
    here the store draws them from its counter, as twelve bytes, most
    significant first. *)
Fixpoint be_bytes (k : nat) (n : Z) (acc : list Z) : list Z :=
  match k with
  | O => acc
  | S k' => be_bytes k' (n / 256) (n mod 256 :: acc)
  end.

Definition generate (n : Z) : bson.ObjectId := be_bytes 12 n [].

(** Modelled from the spec: [create_document] of the module [database],
    which is not among the sources.  The spec gives the store's
    [insert(collection, document) -> generated identifier], the
    identifier being store-assigned, opaque and a string: the document is
    appended to the collection under a fresh ["_id"], whose string form is
    returned. *)
Definition create_document (name : string) (data : Doc) : M string :=
  fun db =>
    let oid := generate (id_counter db) in
    (Return (bson.to_str oid),
     {| collections := <[name := coll db name ++ [<["_id" := VOid oid]> data]]> (collections db);
        id_counter := id_counter db + 1 |}).

(** Python's truth value of an optional document: [None] and the empty
    dict are false. *)
Definition truthy (o : option Doc) : bool :=
  match o with
  | Some d => negb (bool_decide (d = ∅))
  | None => false
  end.

End mongo.

(** ** src/schemas.py *)

Module schemas.

Record Booking := mkBooking {
  car_id : string;
  customer_name : string;
  customer_email : string;
  customer_phone : option string;
  start_date : datetime.date;
  end_date : datetime.date
}.

(** [payload.model_dump()] *)
Definition model_dump (b : Booking) : mongo.Doc :=
  {[ "car_id" := mongo.VStr (car_id b);
     "customer_name" := mongo.VStr (customer_name b);
     "customer_email" := mongo.VStr (customer_email b);
     "customer_phone" := match customer_phone b with
                         | Some p => mongo.VStr p
                         | None => mongo.VNull
                         end;
     "start_date" := mongo.VDate (start_date b);
     "end_date" := mongo.VDate (end_date b) ]}.

End schemas.

(** ** src/main.py *)

Module main.
Import mongo schemas.

Record BookingResponse := mkResponse { id : string }.

(** The four error kinds, by the exception the handler raises. *)
Definition InvalidRange : Exception :=
  HTTPException 400 "End date cannot be before start date".
Definition RentalTooLong : Exception :=
  HTTPException 400 "Max rental length is 30 days".
Definition CarNotFound : Exception :=
  HTTPException 404 "Car not found".
Definition DateConflict : Exception :=
  HTTPException 409 "Selected dates overlap with an existing booking for this car".

(** [ObjectId(payload.car_id)] inside the handler: InvalidId propagates. *)
Definition new_ObjectId (oid : string) : M bson.ObjectId :=
  match bson.ObjectId_init oid with
  | inr o => mret o
  | inl e => raise (InvalidIdError e)
  end.

(** The query of the overlap check. *)
Definition overlap_query (car new_start new_end : string) : Filter :=
  FAnd [FEq "car_id" (VStr car);
        FAnd [FLte "start_date" new_end; FGte "end_date" new_start]].

(** The conditional expression of the car lookup:
    [db["car"].find_one({"_id": ObjectId(car_id)}) if ObjectId.is_valid(car_id) else None] *)
Definition find_car (car_id : string) : M (option Doc) :=
  if bson.is_valid car_id
  then oid ← new_ObjectId car_id; find_one "car" (FEq "_id" (VOid oid))
  else mret None.

Definition create_booking (payload : Booking) : M BookingResponse :=
  if datetime.lt (end_date payload) (start_date payload) then raise InvalidRange
  else
    let delta := datetime.sub_days (end_date payload) (start_date payload) + 1 in
    if 31 <? delta then raise RentalTooLong
    else
      car ← find_car (car_id payload);
      if negb (truthy car) then raise CarNotFound
      else
        let new_start := datetime.isoformat (start_date payload) in
        let new_end := datetime.isoformat (end_date payload) in
        overlap ← find_one "booking" (overlap_query (car_id payload) new_start new_end);
        if truthy overlap then raise DateConflict
        else
          let data := model_dump payload in
          let data := <["start_date" := VStr new_start]> data in
          let data := <["end_date" := VStr new_end]> data in
          inserted_id ← create_document "booking" data;
          mret {| id := inserted_id |}.

End main.

(** ** The vocabulary of the admission properties *)

Module admission.
Import datetime mongo schemas.

Definition bookings (db : Database) : list Doc := coll db "booking".
Definition cars (db : Database) : list Doc := coll db "car".

(** The calendar date a stored string stands for, when it is canonical. *)
Definition stored_date (s : string) : option date :=
  match fromisoformat s with
  | Some d => if String.eqb (isoformat d) s then Some d else None
  | None => None
  end.

(** The car and the inclusive date range of a stored booking. *)
Definition booking_interval (doc : Doc) : option (string * date * date) :=
  match doc !! "car_id", doc !! "start_date", doc !! "end_date" with
  | Some (VStr c), Some (VStr s), Some (VStr e) =>
      match stored_date s, stored_date e with
      | Some ds, Some de => Some (c, ds, de)
      | _, _ => None
      end
  | _, _, _ => None
  end.

(** Every stored booking carries a car and canonical dates, as the ones the
    handler writes do. *)
Definition wf_bookings (db : Database) : bool :=
  forallb (fun doc => match booking_interval doc with Some _ => true | None => false end)
          (bookings db).

(** Inclusive ranges [s1, e1] and [s2, e2] share a day. *)
Definition overlaps (s1 e1 s2 e2 : date) : bool := le s1 e2 && le s2 e1.

Definition docs_overlap (x y : Doc) : bool :=
  match booking_interval x, booking_interval y with
  | Some (c1, s1, e1), Some (c2, s2, e2) => String.eqb c1 c2 && overlaps s1 e1 s2 e2
  | _, _ => false
  end.

Fixpoint pairwise_disjoint (l : list Doc) : bool :=
  match l with
  | [] => true
  | x :: r => forallb (fun y => negb (docs_overlap x y)) r && pairwise_disjoint r
  end.

(** No two stored bookings of one car overlap. *)
Definition no_overlap (db : Database) : bool := pairwise_disjoint (bookings db).

(** The identifier is well formed and some car record carries it. *)
Definition car_exists (db : Database) (cid : string) : bool :=
  match bson.ObjectId_init cid with
  | inr oid => existsb (fun doc => bool_decide (doc !! "_id" = Some (VOid oid))) (cars db)
  | inl _ => false
  end.

(** Payloads hold dates that [datetime.date] can hold. *)
Definition valid_payload (p : Booking) : bool :=
  valid (start_date p) && valid (end_date p).

(** The inclusive day count of the candidate. *)
Definition span (p : Booking) : Z := sub_days (end_date p) (start_date p) + 1.

(** The record the handler hands to [create_document]. *)
Definition record (p : Booking) : Doc :=
  <["end_date" := VStr (isoformat (end_date p))]>
    (<["start_date" := VStr (isoformat (start_date p))]> (model_dump p)).

(** The car record an identifier resolves to. *)
Definition car_of (db : Database) (cid : string) : option Doc :=
  match bson.ObjectId_init cid with
  | inr oid => List.find (matches (FEq "_id" (VOid oid))) (cars db)
  | inl _ => None
  end.

(** The stored bookings the overlap query of a candidate selects. *)
Definition selected (p : Booking) (db : Database) : list Doc :=
  List.filter
    (matches (main.overlap_query (car_id p) (isoformat (start_date p))
                                 (isoformat (end_date p))))
    (bookings db).

(** The document a successful admission adds, and the store after it. *)
Definition new_doc (p : Booking) (db : Database) : Doc :=
  <["_id" := VOid (generate (id_counter db))]> (record p).

Definition inserted (p : Booking) (db : Database) : Database :=
  (create_document "booking" (record p) db).2.

(** Admission calls one after the other, each on the store the one before
    left. *)
Definition submit_all (ps : list Booking) (db : Database) : Database :=
  foldl (fun db p => (main.create_booking p db).2) db ps.

End admission.

(** ** A small store and some candidates *)

Module sample.
Import datetime mongo schemas.

Definition carC : string := "64b7f0c2a1d3e4f5a6b7c8d9".
Definition carD : string := "64b7f0c2a1d3e4f5a6b7c8da".

Definition car_doc (cid make : string) : Doc :=
  match bson.ObjectId_init cid with
  | inr o => {[ "_id" := VOid o; "make" := VStr make ]}
  | inl _ => ∅
  end.

(** Two cars, no booking. *)
Definition db0 : Database :=
  mkdb {[ "car" := [car_doc carC "Skoda"; car_doc carD "Tesla"] ]} 1.

Definition request (cid : string) (s e : date) : Booking :=
  mkBooking cid "Ada" "ada@example.org" None s e.

Definition june_1_10 : Booking := request carC (mkdate 2024 6 1) (mkdate 2024 6 10).
Definition june_10_15 : Booking := request carC (mkdate 2024 6 10) (mkdate 2024 6 15).
Definition june_11_15 : Booking := request carC (mkdate 2024 6 11) (mkdate 2024 6 15).
Definition june_1_10_D : Booking := request carD (mkdate 2024 6 1) (mkdate 2024 6 10).
Definition days_31 : Booking := request carC (mkdate 2024 1 1) (mkdate 2024 1 31).
Definition days_32 : Booking := request carC (mkdate 2024 1 1) (mkdate 2024 2 1).
Definition reversed : Booking := request carC (mkdate 2024 6 10) (mkdate 2024 6 1).
Definition no_such_car : Booking :=
  request "ffffffffffffffffffffffff" (mkdate 2024 6 1) (mkdate 2024 6 10).
Definition malformed_car : Booking :=
  request "not-an-id" (mkdate 2024 6 1) (mkdate 2024 6 10).
Definition malformed_car_reversed : Booking :=
  request "not-an-id" (mkdate 2024 6 10) (mkdate 2024 6 1).
Definition malformed_car_days_32 : Booking :=
  request "not-an-id" (mkdate 2024 1 1) (mkdate 2024 2 1).

(** The store once car C is booked from 2024-06-01 to 2024-06-10. *)
Definition db1 : Database := (main.create_booking june_1_10 db0).2.

End sample.

(** ** The other store helpers *)

Module database.
Import mongo.

(** Modelled from the spec: [get_documents] of the module [database],
    which is not among the sources.  The spec gives the store's
    [find_many(collection, filter) -> sequence of documents]; the handlers
    call it with a collection name only, which yields every document of the
    collection, in the order of the store. *)
Definition get_documents (name : string) : M (list Doc) :=
  fun db => (Return (coll db name), db).

(** [db[name].count_documents({})] *)
Definition count_documents (name : string) : M Z :=
  fun db => (Return (Z.of_nat (length (coll db name))), db).

End database.

(** ** src/main.py: the car and listing endpoints *)

Module endpoints.
Import mongo database.

(** [str(v)] on the values a document holds: None, a str, an int, a date
    (its isoformat) and an ObjectId (its hexadecimal form). *)
Definition py_str (v : Value) : string :=
  match v with
  | VNull => "None"
  | VStr s => s
  | VInt n => NilZero.string_of_int (Z.to_int n)
  | VDate d => datetime.isoformat d
  | VOid o => bson.to_str o
  end.

(** One round of the loop of [list_cars]: the fields other than ["_id"],
    then ["id"] set to [str(d.get("_id"))], [get] giving None when the key
    is absent. *)
Definition car_out (d : Doc) : Doc :=
  <["id" := VStr (py_str (default VNull (d !! "_id")))]> (delete "_id" d).

Definition list_cars : M (list Doc) :=
  docs ← get_documents "car";
  mret (car_out <$> docs).

(** [add_car]; [car] is the document of the Car model the store is handed. *)
Definition add_car (car : Doc) : M Doc :=
  inserted_id ← create_document "car" car;
  mret {[ "id" := VStr inserted_id ]}.

(** What [list_bookings] can end in besides its result. *)
Inductive ListError :=
| StoreError (e : Exception)
| KeyError (key : string).

(** The loop of [list_bookings]: [d["id"] = str(d.pop("_id"))] on each
    document in turn; [pop] raises KeyError when the key is absent. *)
Fixpoint pop_ids (docs : list Doc) : ListError + list Doc :=
  match docs with
  | [] => inr []
  | d :: rest =>
      match d !! "_id" with
      | None => inl (KeyError "_id")
      | Some v =>
          match pop_ids rest with
          | inl e => inl e
          | inr rest' => inr (<["id" := VStr (py_str v)]> (delete "_id" d) :: rest')
          end
      end
  end.

Definition list_bookings (db : Database) : (ListError + list Doc) * Database :=
  match get_documents "booking" db with
  | (Return docs, db') => (pop_ids docs, db')
  | (Raise e, db') => (inl (StoreError e), db')
  end.

(** The loop of [seed_cars]: [create_document("car", s)] for each sample. *)
Fixpoint create_all (sample : list Doc) : M unit :=
  match sample with
  | [] => mret tt
  | s :: rest => _ ← create_document "car" s; create_all rest
  end.

(** [seed_cars].  The five literal sample documents carry prices that are
    floats, which [Value] has no constructor for; the handler never looks
    inside them, so the list is an argument here. *)
Definition seed_cars (sample : list Doc) : M Doc :=
  n ← count_documents "car";
  if 0 <? n then mret {[ "status" := VStr "already-seeded" ]}
  else
    _ ← create_all sample;
    mret {[ "status" := VStr "seeded"; "count" := VInt (Z.of_nat (length sample)) ]}.

End endpoints.

(** ** src/main.py: the database test endpoint *)

Module status.

(** What reading an attribute of an object can do. *)
Inductive Attr :=
| NoAttr
| AttrIs (s : string)
| AttrRaises (msg : string).

(** The global [db] as [test_database] uses it: its [name] attribute, and
    what [list_collection_names()] returns or the text of what it raises. *)
Record Handle := mkHandle {
  name : Attr;
  list_collection_names : string + list string
}.

(** The process around the handler: [db], which may be None, and the
    environment variables. *)
Record World := mkWorld {
  db : option Handle;
  getenv : string -> option string
}.

(** The response dict, by its six keys. *)
Record Response := mkStatus {
  backend : string;
  database : string;
  database_url : option string;
  database_name : option string;
  connection_status : string;
  collections : list string
}.

(** A byte that continues a UTF-8 sequence: 10xxxxxx. *)
Definition is_continuation (c : ascii) : bool :=
  let n := Z.of_N (N_of_ascii c) in (128 <=? n) && (n <? 192).

(** [s[:n]] on a str held as UTF-8: the first [n] characters. *)
Fixpoint str_take (n : nat) (s : string) : string :=
  match s with
  | EmptyString => EmptyString
  | String c s' =>
      if is_continuation c then String c (str_take n s')
      else match n with
           | O => EmptyString
           | S n' => String c (str_take n' s')
           end
  end.

(** [len(s)] on a str held as UTF-8. *)
Fixpoint str_len (s : string) : nat :=
  match s with
  | EmptyString => O
  | String c s' => if is_continuation c then str_len s' else S (str_len s')
  end.

(** The truth value of [os.getenv(key)]: set, and not empty. *)
Definition env_set (w : World) (key : string) : bool :=
  match getenv w key with
  | Some v => negb (String.eqb v EmptyString)
  | None => false
  end.

Definition initial : Response :=
  {| backend := "✅ Running";
     database := "❌ Not Available";
     database_url := None;
     database_name := None;
     connection_status := "Not Connected";
     collections := [] |}.

Definition set_database (v : string) (r : Response) : Response :=
  {| backend := backend r; database := v; database_url := database_url r;
     database_name := database_name r; connection_status := connection_status r;
     collections := collections r |}.

Definition set_database_url (v : string) (r : Response) : Response :=
  {| backend := backend r; database := database r; database_url := Some v;
     database_name := database_name r; connection_status := connection_status r;
     collections := collections r |}.

Definition set_database_name (v : string) (r : Response) : Response :=
  {| backend := backend r; database := database r; database_url := database_url r;
     database_name := Some v; connection_status := connection_status r;
     collections := collections r |}.

Definition set_connection_status (v : string) (r : Response) : Response :=
  {| backend := backend r; database := database r; database_url := database_url r;
     database_name := database_name r; connection_status := v;
     collections := collections r |}.

Definition set_collections (v : list string) (r : Response) : Response :=
  {| backend := backend r; database := database r; database_url := database_url r;
     database_name := database_name r; connection_status := connection_status r;
     collections := v |}.

(** The inner try block, on a [db] that is not None. *)
Definition inner_try (h : Handle) (r : Response) : Response :=
  match list_collection_names h with
  | inr names =>
      set_database "✅ Connected & Working" (set_collections (take 10 names) r)
  | inl msg =>
      set_database ("⚠️  Connected but Error: " +:+ str_take 50 msg) r
  end.

(** The outer try block: the response when it ends, or the response so far
    and the text of the exception. *)
Definition outer_try (w : World) (r : Response) : Response + Response * string :=
  match db w with
  | Some h =>
      let r := set_database "✅ Available" r in
      let r := set_database_url "✅ Configured" r in
      match name h with
      | AttrRaises msg => inr (r, msg)
      | AttrIs n =>
          inl (inner_try h (set_connection_status "Connected" (set_database_name n r)))
      | NoAttr =>
          inl (inner_try h (set_connection_status "Connected"
                              (set_database_name "✅ Connected" r)))
      end
  | None => inl (set_database "⚠️  Available but not initialized" r)
  end.

Definition test_database (w : World) : Response :=
  let r := match outer_try w initial with
           | inl r => r
           | inr (r, msg) => set_database ("❌ Error: " +:+ str_take 50 msg) r
           end in
  let r := set_database_url (if env_set w "DATABASE_URL" then "✅ Set" else "❌ Not Set") r in
  set_database_name (if env_set w "DATABASE_NAME" then "✅ Set" else "❌ Not Set") r.

End status.

(** ** The vocabulary of the further properties *)

Module policy.
Import datetime mongo schemas admission.

(** A stored booking within the rental policy: canonical dates, in order,
    spanning at most 31 days. *)
Definition booking_ok (doc : Doc) : bool :=
  match booking_interval doc with
  | Some (_, s, e) => le s e && (sub_days e s + 1 <=? 31)
  | None => false
  end.

Definition all_ok (db : Database) : bool := forallb booking_ok (bookings db).

(** The candidate with another spelling of the car identifier. *)
Definition with_car_id (cid : string) (p : Booking) : Booking :=
  mkBooking cid (customer_name p) (customer_email p) (customer_phone p)
            (start_date p) (end_date p).

(** Two candidates that cannot both hold: one car, dates that overlap. *)
Definition clash (p q : Booking) : bool :=
  String.eqb (car_id p) (car_id q) &&
  overlaps (start_date p) (end_date p) (start_date q) (end_date q).

(** Two spellings of a car identifier that name one car: both parse, to
    the same ObjectId, which is what the car lookup goes by. *)
Definition same_car (c1 c2 : string) : bool :=
  match bson.ObjectId_init c1, bson.ObjectId_init c2 with
  | inr o1, inr o2 => bool_decide (o1 = o2)
  | _, _ => false
  end.

(** Two stored bookings of one car whose date ranges share a day. *)
Definition docs_overlap_per_car (x y : Doc) : bool :=
  match booking_interval x, booking_interval y with
  | Some (c1, s1, e1), Some (c2, s2, e2) => same_car c1 c2 && overlaps s1 e1 s2 e2
  | _, _ => false
  end.

Fixpoint pairwise_disjoint_per_car (l : list Doc) : bool :=
  match l with
  | [] => true
  | x :: r =>
      forallb (fun y => negb (docs_overlap_per_car x y)) r && pairwise_disjoint_per_car r
  end.

(** No two stored bookings of one car overlap, the car being the one the
    identifier resolves to. *)
Definition no_overlap_per_car (db : Database) : bool :=
  pairwise_disjoint_per_car (bookings db).

(** The document carries an ["_id"]. *)
Definition has_id (doc : Doc) : bool :=
  match doc !! "_id" with
  | Some _ => true
  | None => false
  end.

(** Twelve bytes. *)
Definition oid_wf (o : bson.ObjectId) : bool :=
  (length o =? 12)%nat && forallb (fun b => (0 <=? b) && (b <? 256)) o.

End policy.

(** ** More sample data *)

Module sample2.
Import datetime mongo schemas sample.

(** Car C again, its identifier spelled in upper case. *)
Definition carC_upper : string := "64B7F0C2A1D3E4F5A6B7C8D9".

Definition june_5_8 : Booking := request carC (mkdate 2024 6 5) (mkdate 2024 6 8).
Definition june_5_8_D : Booking := request carD (mkdate 2024 6 5) (mkdate 2024 6 8).

Definition octavia : Doc :=
  {[ "make" := VStr "Skoda"; "model" := VStr "Octavia"; "year" := VInt 2020;
     "transmission" := VStr "Automatic"; "seats" := VInt 5; "fuel" := VStr "Petrol" ]}.

Definition golf : Doc :=
  {[ "make" := VStr "Volkswagen"; "model" := VStr "Golf"; "year" := VInt 2019;
     "transmission" := VStr "Manual"; "seats" := VInt 5; "fuel" := VStr "Diesel" ]}.

(** A store with nothing in it. *)
Definition empty_db : Database := mkdb ∅ 1.

(** A store with a booking that has lost its ["_id"]. *)
Definition db_no_id : Database :=
  mkdb {[ "booking" := [ {[ "car_id" := VStr carC ]} ] ]} 1.

(** The first candidate again, under another customer. *)
Definition june_1_10_bob : Booking :=
  mkBooking carC "Bob" "bob@example.org" (Some "+420 555 0100")
            (mkdate 2024 6 1) (mkdate 2024 6 10).

Definition no_env : string -> option string := fun _ => None.

Definition env_url_only : string -> option string :=
  fun key => if String.eqb key "DATABASE_URL" then Some "mongodb://localhost"
             else if String.eqb key "DATABASE_NAME" then Some ""
             else None.

Definition twelve_names : list string :=
  ["a"; "b"; "c"; "d"; "e"; "f"; "g"; "h"; "i"; "j"; "k"; "l"].

Definition world_working : status.World :=
  status.mkWorld (Some (status.mkHandle (status.AttrIs "rental") (inr twelve_names)))
                 env_url_only.

Definition world_failing : status.World :=
  status.mkWorld (Some (status.mkHandle (status.AttrIs "rental") (inl "connection refused")))
                 no_env.

End sample2.

(** ** Facts about dates *)

Module datetime_facts.
Import datetime.

Ltac div_lia := Z.to_euclidean_division_equations; lia.

Lemma days_before_year_succ y :
  days_before_year (y + 1) =
  days_before_year y + 365 + (if is_leap y then 1 else 0).
Proof.
  unfold days_before_year, is_leap.
  replace (y + 1 - 1) with y by lia.
  destruct (Z.eqb_spec (y mod 4) 0), (Z.eqb_spec (y mod 100) 0),
    (Z.eqb_spec (y mod 400) 0); cbn [andb orb negb]; div_lia.
Qed.

Lemma days_before_year_mono y y' :
  y <= y' -> days_before_year y <= days_before_year y'.
Proof. unfold days_before_year. intros. div_lia. Qed.

Lemma month_cases m :
  1 <= m <= 12 ->
  m = 1 \/ m = 2 \/ m = 3 \/ m = 4 \/ m = 5 \/ m = 6 \/
  m = 7 \/ m = 8 \/ m = 9 \/ m = 10 \/ m = 11 \/ m = 12.
Proof. lia. Qed.

Ltac month_split m H :=
  destruct (month_cases m H) as
    [->|[->|[->|[->|[->|[->|[->|[->|[->|[->|[->| ->]]]]]]]]]]].

(** The days of a month end no later than the year does. *)
Lemma month_within_year y m :
  1 <= m <= 12 ->
  0 <= days_before_month y m /\
  days_before_month y m + days_in_month y m <= 365 + (if is_leap y then 1 else 0).
Proof.
  intros H. unfold days_before_month, days_in_month.
  month_split m H; destruct (is_leap y); cbn; lia.
Qed.

(** A month ends before any later month of the same year starts. *)
Lemma month_before_month y m m' :
  1 <= m <= 12 -> 1 <= m' <= 12 -> m < m' ->
  days_before_month y m + days_in_month y m <= days_before_month y m'.
Proof.
  intros H H' Hlt. unfold days_before_month, days_in_month.
  month_split m H; month_split m' H'; try lia; destruct (is_leap y); cbn; lia.
Qed.

Lemma valid_bounds d :
  valid d = true ->
  1 <= year d <= 9999 /\ 1 <= month d <= 12 /\
  1 <= day d <= days_in_month (year d) (month d).
Proof. unfold valid. intros H. repeat (apply andb_prop in H as [H ?]). lia. Qed.

Lemma cmp_lt_toordinal a b :
  valid a = true -> valid b = true ->
  cmp a b = Lt -> toordinal a < toordinal b.
Proof.
  intros Ha Hb. apply valid_bounds in Ha as (Hya & Hma & Hda).
  apply valid_bounds in Hb as (Hyb & Hmb & Hdb).
  unfold cmp, toordinal, ymd2ord.
  destruct (Z.compare_spec (year a) (year b)) as [Hy|Hy|Hy]; try discriminate.
  - rewrite Hy in *.
    destruct (Z.compare_spec (month a) (month b)) as [Hm|Hm|Hm]; try discriminate.
    + rewrite Hm. intros Hd. change (day a < day b) in Hd. lia.
    + intros _.
      pose proof (month_before_month (year b) (month a) (month b) Hma Hmb Hm). lia.
  - intros _.
    pose proof (month_within_year (year a) (month a) Hma) as [_ Hin].
    pose proof (month_within_year (year b) (month b) Hmb) as [Hpos _].
    pose proof (days_before_year_succ (year a)) as Hs.
    pose proof (days_before_year_mono (year a + 1) (year b) ltac:(lia)). lia.
Qed.

Lemma cmp_antisym a b : cmp b a = CompOpp (cmp a b).
Proof.
  unfold cmp. rewrite (Z.compare_antisym (year a)), (Z.compare_antisym (month a)),
    (Z.compare_antisym (day a)).
  destruct (year a ?= year b), (month a ?= month b), (day a ?= day b); reflexivity.
Qed.

Lemma cmp_eq a b : cmp a b = Eq -> a = b.
Proof.
  unfold cmp. destruct a as [y m d], b as [y' m' d']; cbn.
  destruct (Z.compare_spec y y'); try discriminate.
  destruct (Z.compare_spec m m'); try discriminate.
  intros ->%Z.compare_eq. congruence.
Qed.

(** Comparing dates is comparing their ordinals. *)
Lemma cmp_toordinal a b :
  valid a = true -> valid b = true ->
  cmp a b = (toordinal a ?= toordinal b).
Proof.
  intros Ha Hb. destruct (cmp a b) eqn:E.
  - apply cmp_eq in E as ->. symmetry. apply Z.compare_refl.
  - symmetry. apply Z.compare_lt_iff. now apply cmp_lt_toordinal.
  - symmetry. apply Z.compare_gt_iff. apply cmp_lt_toordinal; auto.
    rewrite cmp_antisym, E. reflexivity.
Qed.

Lemma lt_toordinal a b :
  valid a = true -> valid b = true ->
  lt a b = (toordinal a <? toordinal b).
Proof.
  intros Ha Hb. unfold lt, Z.ltb. now rewrite cmp_toordinal.
Qed.

Lemma le_toordinal a b :
  valid a = true -> valid b = true ->
  le a b = (toordinal a <=? toordinal b).
Proof.
  intros Ha Hb. unfold le, Z.leb. now rewrite cmp_toordinal.
Qed.

Lemma lt_false_le a b : lt b a = false -> le a b = true.
Proof.
  unfold lt, le. rewrite (cmp_antisym a b). destruct (cmp a b); cbn; congruence.
Qed.

Lemma le_refl a : le a a = true.
Proof.
  unfold le, cmp. now rewrite !Z.compare_refl.
Qed.

End datetime_facts.

(** ** Facts about the canonical date strings *)

Module isoformat_facts.
Import datetime datetime_facts.

Lemma N_of_digit k : 0 <= k < 10 -> N_of_ascii (digit k) = Z.to_N (48 + k).
Proof. intros H. unfold digit. apply N_ascii_embedding. lia. Qed.

Lemma compare_digit a b :
  0 <= a < 10 -> 0 <= b < 10 -> Ascii.compare (digit a) (digit b) = (a ?= b).
Proof.
  intros Ha Hb. unfold Ascii.compare. rewrite !N_of_digit by assumption.
  rewrite Z2N.inj_compare by lia. apply Z.add_compare_mono_l.
Qed.

Lemma digit_val_digit k : 0 <= k < 10 -> digit_val (digit k) = Some k.
Proof.
  intros H. unfold digit_val. rewrite N_of_digit by assumption.
  rewrite Z2N.id by lia.
  destruct (Z.leb_spec 48 (48 + k)), (Z.leb_spec (48 + k) 57); try lia.
  cbn. f_equal. lia.
Qed.

(** Numbers compare as their leading digits and then their last digit. *)
Lemma compare_div_mod a b :
  (a ?= b) = match a / 10 ?= b / 10 with
             | Eq => a mod 10 ?= b mod 10
             | c => c
             end.
Proof.
  destruct (Z.compare_spec (a / 10) (b / 10));
    destruct (Z.compare_spec (a mod 10) (b mod 10));
    destruct (Z.compare_spec a b); try reflexivity; div_lia.
Qed.

(** Two numbers padded to the same width compare as strings the way they
    compare as numbers, ties going to what follows. *)
Lemma compare_zpad w : forall a b s t,
  0 <= a < 10 ^ Z.of_nat w -> 0 <= b < 10 ^ Z.of_nat w ->
  String.compare (zpad w a s) (zpad w b t) =
  match a ?= b with
  | Eq => String.compare s t
  | c => c
  end.
Proof.
  induction w as [|w IH]; intros a b s t Ha Hb.
  - cbn in Ha, Hb. assert (a = 0) as -> by lia. assert (b = 0) as -> by lia.
    reflexivity.
  - rewrite Nat2Z.inj_succ, Z.pow_succ_r in Ha, Hb by lia.
    cbn [zpad]. rewrite IH by div_lia.
    cbn [String.compare].
    rewrite compare_digit by (apply Z.mod_pos_bound; lia).
    rewrite (compare_div_mod a b).
    destruct (a / 10 ?= b / 10); reflexivity.
Qed.

Lemma compare_isoformat a b :
  valid a = true -> valid b = true ->
  String.compare (isoformat a) (isoformat b) = cmp a b.
Proof.
  intros Ha Hb.
  apply valid_bounds in Ha as (Hya & Hma & Hda).
  apply valid_bounds in Hb as (Hyb & Hmb & Hdb).
  assert (day a <= 31 /\ day b <= 31) as [Hda' Hdb'].
  { revert Hda Hdb. unfold days_in_month.
    month_split (month a) Hma; month_split (month b) Hmb;
      destruct (is_leap (year a)), (is_leap (year b)); cbn; lia. }
  unfold isoformat, cmp.
  rewrite compare_zpad by (cbn; lia).
  destruct (year a ?= year b); try reflexivity.
  change (String.compare (String "-" ?s) (String "-" ?t)) with (String.compare s t).
  rewrite compare_zpad by (cbn; lia).
  destruct (month a ?= month b); try reflexivity.
  change (String.compare (String "-" ?s) (String "-" ?t)) with (String.compare s t).
  rewrite compare_zpad by (cbn; lia).
  destruct (day a ?= day b); reflexivity.
Qed.

(** Byte-wise comparison of canonical date strings is chronological. *)
Lemma leb_isoformat a b :
  valid a = true -> valid b = true ->
  String.leb (isoformat a) (isoformat b) = le a b.
Proof.
  intros Ha Hb. unfold String.leb, le. now rewrite compare_isoformat.
Qed.

Lemma isoformat_digits d :
  isoformat d =
  String (digit (year d / 10 / 10 / 10 mod 10)) (String (digit (year d / 10 / 10 mod 10))
  (String (digit (year d / 10 mod 10)) (String (digit (year d mod 10)) (String "-"
  (String (digit (month d / 10 mod 10)) (String (digit (month d mod 10)) (String "-"
  (String (digit (day d / 10 mod 10)) (String (digit (day d mod 10)) EmptyString))))))))).
Proof. reflexivity. Qed.

(** A date is read back from its canonical string. *)
Lemma fromisoformat_isoformat d :
  valid d = true -> fromisoformat (isoformat d) = Some d.
Proof.
  intros Hv. pose proof (valid_bounds d Hv) as (Hy & Hm & Hd).
  assert (day d <= 31).
  { revert Hd. unfold days_in_month.
    month_split (month d) Hm; destruct (is_leap (year d)); cbn; lia. }
  rewrite isoformat_digits. cbv beta iota delta [fromisoformat].
  rewrite !digit_val_digit by (apply Z.mod_pos_bound; lia).
  cbv beta iota zeta.
  replace (mkdate _ _ _) with d.
  - now rewrite Hv.
  - destruct d as [y m dd]; cbn in *. f_equal; div_lia.
Qed.

Lemma length_zpad w : forall n s,
  String.length (zpad w n s) = (w + String.length s)%nat.
Proof.
  induction w as [|w IH]; intros n s; cbn [zpad]; [reflexivity|].
  rewrite IH. cbn. lia.
Qed.

Lemma length_isoformat d : String.length (isoformat d) = 10%nat.
Proof. reflexivity. Qed.

End isoformat_facts.

(** ** Facts about the store and the handler's steps *)

Module store_facts.
Import datetime datetime_facts isoformat_facts mongo schemas main admission.

Lemma matches_FEq field v (d : Doc) :
  matches (FEq field v) d = bool_decide (d !! field = Some v).
Proof.
  cbn. destruct (d !! field) as [x|] eqn:E.
  - destruct (decide (x = v)) as [->|Hne].
    + now rewrite !bool_decide_eq_true_2.
    + rewrite !bool_decide_eq_false_2; congruence.
  - now rewrite bool_decide_eq_false_2.
Qed.

Lemma matches_FEq_nonempty field v (d : Doc) :
  matches (FEq field v) d = true -> d <> ∅.
Proof.
  rewrite matches_FEq. intros H%bool_decide_eq_true ->.
  now rewrite lookup_empty in H.
Qed.

Lemma matches_overlap_query_nonempty c s e (d : Doc) :
  matches (overlap_query c s e) d = true -> d <> ∅.
Proof.
  unfold overlap_query. cbn [matches forallb].
  intros H%andb_prop. destruct H as [H _].
  now apply matches_FEq_nonempty in H.
Qed.

(** The truth value of what [find_one] returns, when the query matches no
    empty document. *)
Lemma truthy_find q (l : list Doc) :
  (forall d, matches q d = true -> d <> ∅) ->
  truthy (List.find (matches q) l) = existsb (matches q) l.
Proof.
  intros Hq. induction l as [|d l IH]; [reflexivity|].
  cbn [List.find existsb]. destruct (matches q d) eqn:E; [|exact IH].
  cbn. now rewrite bool_decide_eq_false_2 by auto.
Qed.

Lemma is_valid_init cid :
  bson.is_valid cid = match bson.ObjectId_init cid with
                      | inr _ => true
                      | inl _ => false
                      end.
Proof.
  unfold bson.is_valid. destruct (String.eqb_spec cid EmptyString) as [->|]; reflexivity.
Qed.

(** The car lookup returns the record the identifier resolves to and
    leaves the store as it is. *)
Lemma find_car_eq cid db :
  find_car cid db = (Return (car_of db cid), db).
Proof.
  unfold find_car, car_of. rewrite is_valid_init. unfold new_ObjectId.
  destruct (bson.ObjectId_init cid) as [e|oid]; reflexivity.
Qed.

Lemma truthy_car_of db cid :
  truthy (car_of db cid) = car_exists db cid.
Proof.
  unfold car_of, car_exists. destruct (bson.ObjectId_init cid) as [e|oid]; [reflexivity|].
  rewrite truthy_find by apply matches_FEq_nonempty.
  induction (cars db) as [|d l IH]; [reflexivity|].
  cbn [existsb]. now rewrite IH, matches_FEq.
Qed.

(** The handler, step by step. *)
Lemma create_booking_eq p db :
  create_booking p db =
  if lt (end_date p) (start_date p) then (Raise InvalidRange, db)
  else if 31 <? span p then (Raise RentalTooLong, db)
  else if car_exists db (car_id p) then
    if existsb (matches (overlap_query (car_id p) (isoformat (start_date p))
                                       (isoformat (end_date p)))) (bookings db)
    then (Raise DateConflict, db)
    else (Return {| id := bson.to_str (generate (id_counter db)) |}, inserted p db)
  else (Raise CarNotFound, db).
Proof.
  unfold create_booking, span.
  destruct (lt (end_date p) (start_date p)); [reflexivity|].
  destruct (31 <? _); [reflexivity|].
  unfold mbind at 1, M_bind. rewrite find_car_eq, truthy_car_of.
  destruct (car_exists db (car_id p)); [|reflexivity].
  cbn [negb]. unfold mbind at 1, M_bind. unfold find_one at 1.
  rewrite truthy_find by apply matches_overlap_query_nonempty.
  fold (bookings db).
  destruct (existsb _ (bookings db)); reflexivity.
Qed.

Lemma bookings_inserted p db :
  bookings (inserted p db) = bookings db ++ [new_doc p db].
Proof.
  unfold inserted, bookings, coll, create_document. cbn.
  now rewrite lookup_insert_eq.
Qed.

Lemma cars_inserted p db : cars (inserted p db) = cars db.
Proof.
  unfold inserted, cars, coll, create_document. cbn.
  now rewrite lookup_insert_ne by done.
Qed.

End store_facts.

(** ** Facts about stored bookings and their date ranges *)

Module interval_facts.
Import datetime datetime_facts isoformat_facts mongo schemas main admission store_facts.

Lemma fromisoformat_valid s d : fromisoformat s = Some d -> valid d = true.
Proof.
  unfold fromisoformat. intros H.
  repeat case_match; try discriminate. now simplify_eq.
Qed.

Lemma stored_date_Some s d :
  stored_date s = Some d -> s = isoformat d /\ valid d = true.
Proof.
  unfold stored_date. destruct (fromisoformat s) as [d'|] eqn:E; [|discriminate].
  destruct (String.eqb_spec (isoformat d') s) as [Hs|]; [|discriminate].
  intros [= <-]. split; [now symmetry|]. now apply fromisoformat_valid in E.
Qed.

Lemma stored_date_isoformat d :
  valid d = true -> stored_date (isoformat d) = Some d.
Proof.
  intros H. unfold stored_date.
  now rewrite fromisoformat_isoformat, String.eqb_refl.
Qed.

Lemma booking_interval_Some (doc : Doc) c s e :
  booking_interval doc = Some (c, s, e) ->
  doc !! "car_id" = Some (VStr c) /\
  doc !! "start_date" = Some (VStr (isoformat s)) /\
  doc !! "end_date" = Some (VStr (isoformat e)) /\
  valid s = true /\ valid e = true.
Proof.
  unfold booking_interval. intros H.
  repeat case_match; try discriminate. simplify_eq.
  repeat match goal with
         | H : stored_date _ = Some _ |- _ => apply stored_date_Some in H as [-> ?]
         end.
  auto.
Qed.

(** The record the handler writes stands for the candidate's car and
    dates. *)
Lemma booking_interval_new_doc p db :
  valid_payload p = true ->
  booking_interval (new_doc p db) = Some (car_id p, start_date p, end_date p).
Proof.
  intros [Hs He]%andb_prop.
  unfold booking_interval, new_doc, record, model_dump.
  repeat (rewrite lookup_insert_eq || rewrite lookup_insert_ne by done).
  now rewrite !stored_date_isoformat.
Qed.

(** On a stored booking with canonical dates the overlap query decides
    same car and chronological overlap. *)
Lemma matches_overlap_query p (doc : Doc) c s e :
  valid_payload p = true ->
  booking_interval doc = Some (c, s, e) ->
  matches (overlap_query (car_id p) (isoformat (start_date p))
                         (isoformat (end_date p))) doc =
  String.eqb c (car_id p) && overlaps s e (start_date p) (end_date p).
Proof.
  intros [Hs He]%andb_prop (Hc & Hsd & Hed & Hvs & Hve)%booking_interval_Some.
  unfold overlap_query, overlaps. cbn [matches forallb].
  rewrite Hc, Hsd, Hed, !leb_isoformat by assumption.
  rewrite !andb_true_r. f_equal.
  destruct (String.eqb_spec c (car_id p)) as [->|Hne].
  - now apply bool_decide_eq_true_2.
  - apply bool_decide_eq_false_2. congruence.
Qed.

Lemma docs_overlap_new_doc p db (doc : Doc) :
  valid_payload p = true ->
  docs_overlap doc (new_doc p db) = true ->
  matches (overlap_query (car_id p) (isoformat (start_date p))
                         (isoformat (end_date p))) doc = true.
Proof.
  intros Hp. unfold docs_overlap. rewrite booking_interval_new_doc by assumption.
  destruct (booking_interval doc) as [[[c s] e]|] eqn:E; [|discriminate].
  now rewrite (matches_overlap_query p doc c s e).
Qed.

Lemma pairwise_disjoint_snoc l x :
  pairwise_disjoint (l ++ [x]) =
  pairwise_disjoint l && forallb (fun y => negb (docs_overlap y x)) l.
Proof.
  induction l as [|y l IH]; [reflexivity|].
  cbn [app pairwise_disjoint forallb]. rewrite IH, forallb_app. cbn [forallb].
  destruct (docs_overlap y x), (forallb _ l), (pairwise_disjoint l), (forallb _ l);
    reflexivity.
Qed.

Lemma le_negb_lt a b : le a b = negb (lt b a).
Proof.
  unfold le, lt. rewrite (cmp_antisym a b). now destruct (cmp a b).
Qed.

Lemma docs_overlap_sym (x y : Doc) : docs_overlap x y = docs_overlap y x.
Proof.
  unfold docs_overlap, overlaps.
  destruct (booking_interval x) as [[[c1 s1] e1]|], (booking_interval y) as [[[c2 s2] e2]|];
    try reflexivity.
  rewrite String.eqb_sym. f_equal. apply andb_comm.
Qed.

(** Two stored bookings overlap when they are of one car and neither ends
    before the other starts. *)
Lemma docs_overlap_false (x y : Doc) :
  docs_overlap x y = false <->
  forall c s1 e1 s2 e2,
    booking_interval x = Some (c, s1, e1) -> booking_interval y = Some (c, s2, e2) ->
    lt e1 s2 = true \/ lt e2 s1 = true.
Proof.
  unfold docs_overlap, overlaps.
  destruct (booking_interval x) as [[[c1 s1] e1]|]; [|now split].
  destruct (booking_interval y) as [[[c2 s2] e2]|]; [|now split].
  rewrite !le_negb_lt. split.
  - intros H c s1' e1' s2' e2' ? ?. simplify_eq.
    rewrite String.eqb_refl in H. destruct (lt e2' s1'), (lt e1' s2'); auto; discriminate.
  - intros H. destruct (String.eqb_spec c1 c2) as [->|]; [|reflexivity].
    destruct (H c2 s1 e1 s2 e2 eq_refl eq_refl) as [-> | ->]; cbn;
      [apply andb_false_r|reflexivity].
Qed.

(** The meaning of [pairwise_disjoint]: no two entries overlap. *)
Lemma pairwise_disjoint_lookup (l : list Doc) :
  pairwise_disjoint l = true <->
  forall (i j : nat) x y,
    i <> j -> l !! i = Some x -> l !! j = Some y -> docs_overlap x y = false.
Proof.
  induction l as [|d l IH]; cbn [pairwise_disjoint].
  - split; [intros _ i j x y _ Hi; discriminate|reflexivity].
  - rewrite andb_true_iff, forallb_forall, IH. split.
    + intros [Hd Hl] i j x y Hne Hi Hj.
      destruct i as [|i], j as [|j]; cbn in Hi, Hj; simplify_eq.
      * apply negb_true_iff, Hd, list_elem_of_In. eapply list_elem_of_lookup_2; eauto.
      * rewrite docs_overlap_sym.
        apply negb_true_iff, Hd, list_elem_of_In. eapply list_elem_of_lookup_2; eauto.
      * eapply (Hl i j); eauto.
    + intros H. split.
      * intros y [j Hj]%list_elem_of_In%list_elem_of_lookup_1.
        apply negb_true_iff. apply (H 0%nat (S j)); auto.
      * intros i j x y Hne Hi Hj. apply (H (S i) (S j)); auto.
Qed.

(** Ranges that are not empty overlap exactly when they share a day. *)
Lemma overlaps_share_day s1 e1 s2 e2 :
  valid s1 = true -> valid e1 = true -> valid s2 = true -> valid e2 = true ->
  le s1 e1 = true -> le s2 e2 = true ->
  overlaps s1 e1 s2 e2 = true <->
  exists n, toordinal s1 <= n <= toordinal e1 /\ toordinal s2 <= n <= toordinal e2.
Proof.
  intros V1 V2 V3 V4. unfold overlaps.
  rewrite !le_toordinal, andb_true_iff, !Z.leb_le by assumption.
  intros H1 H2. split.
  - intros [Ha Hb]. exists (Z.max (toordinal s1) (toordinal s2)). lia.
  - intros (n & Hn1 & Hn2). lia.
Qed.

Lemma wf_bookings_interval db doc :
  wf_bookings db = true -> In doc (bookings db) ->
  exists c s e, booking_interval doc = Some (c, s, e).
Proof.
  unfold wf_bookings. rewrite forallb_forall. intros H Hin.
  specialize (H doc Hin). destruct (booking_interval doc) as [[[c s] e]|]; [|discriminate].
  eauto.
Qed.

End interval_facts.

(** ** The handler on the sample store *)

Module sample_facts.
Import datetime mongo schemas main admission sample.

Example isoformat_2024_06_01 :
  isoformat (mkdate 2024 6 1) = "2024-06-01"%string.
Proof. reflexivity. Qed.

Example toordinal_2024_06_01 : toordinal (mkdate 2024 6 1) = 739038.
Proof. reflexivity. Qed.

Example first_booking_accepted :
  (create_booking june_1_10 db0).1 = Return {| id := "000000000000000000000001" |}.
Proof. vm_compute. reflexivity. Qed.

Example touching_range_conflicts :
  create_booking june_10_15 db1 = (Raise DateConflict, db1).
Proof. vm_compute. reflexivity. Qed.

Example next_day_accepted :
  (create_booking june_11_15 db1).1 = Return {| id := "000000000000000000000002" |}.
Proof. vm_compute. reflexivity. Qed.

Example other_car_accepted :
  (create_booking june_1_10_D db1).1 = Return {| id := "000000000000000000000002" |}.
Proof. vm_compute. reflexivity. Qed.

Example span_31_not_too_long :
  span days_31 = 31 /\
  (create_booking days_31 db0).1 = Return {| id := "000000000000000000000001" |}.
Proof. split; vm_compute; reflexivity. Qed.

Example span_32_too_long :
  span days_32 = 32 /\ create_booking days_32 db0 = (Raise RentalTooLong, db0).
Proof. split; vm_compute; reflexivity. Qed.

Example unknown_car_not_found :
  create_booking no_such_car db1 = (Raise CarNotFound, db1).
Proof. vm_compute. reflexivity. Qed.

(** White space between the pairs of hexadecimal digits passes the
    validity guard; the shorter identifier matches no car. *)
Example spaced_car_id_not_found :
  bson.is_valid "64 b7 f0 c2 a1 d3 e4 f5 " = true /\
  (create_booking (request "64 b7 f0 c2 a1 d3 e4 f5 " (mkdate 2024 6 1) (mkdate 2024 6 2)) db1).1
  = Raise CarNotFound.
Proof. split; vm_compute; reflexivity. Qed.

End sample_facts.

(** ** The admission properties *)

Section Admission.
Import datetime datetime_facts isoformat_facts mongo schemas main admission.
Import store_facts interval_facts.

Implicit Types (p : Booking) (db : Database) (doc : Doc).

(** C1.  For a candidate that passes the date-order, length and
    car-existence checks, on a store whose bookings carry canonical dates,
    admission fails with DateConflict exactly when some stored booking has
    the candidate's car identifier, a start date no later than the
    candidate's end date and an end date no earlier than the candidate's
    start date; ranges that touch at a boundary day count. *)
Theorem date_conflict_iff_overlap p db :
  valid_payload p = true ->
  wf_bookings db = true ->
  lt (end_date p) (start_date p) = false ->
  span p <= 31 ->
  car_exists db (car_id p) = true ->
  (create_booking p db).1 = Raise DateConflict <->
  exists doc c s e,
    In doc (bookings db) /\ booking_interval doc = Some (c, s, e) /\
    c = car_id p /\ le s (end_date p) = true /\ le (start_date p) e = true.
Proof.
  intros Hp Hwf Hord Hlen Hcar.
  rewrite create_booking_eq, Hord, Hcar.
  destruct (Z.ltb_spec 31 (span p)) as [|_]; [lia|].
  destruct (existsb _ (bookings db)) eqn:E; cbn [fst]; split.
  - intros _. apply existsb_exists in E as (doc & Hin & Hm).
    destruct (wf_bookings_interval db doc Hwf Hin) as (c & s & e & Hi).
    rewrite (matches_overlap_query p doc c s e Hp Hi) in Hm.
    apply andb_prop in Hm as [Hc Hov]. apply andb_prop in Hov as [Hs He].
    apply String.eqb_eq in Hc. exists doc, c, s, e. auto.
  - reflexivity.
  - discriminate.
  - intros (doc & c & s & e & Hin & Hi & -> & Hs & He). exfalso.
    assert (existsb (matches (overlap_query (car_id p) (isoformat (start_date p))
                                            (isoformat (end_date p)))) (bookings db) = true)
      as E'; [|congruence].
    apply existsb_exists. exists doc. split; [assumption|].
    rewrite (matches_overlap_query p doc (car_id p) s e Hp Hi).
    unfold overlaps. now rewrite String.eqb_refl, Hs, He.
Qed.

Lemma date_conflict_iff_overlap_witness :
  valid_payload sample.june_10_15 = true /\
  wf_bookings sample.db1 = true /\
  ((create_booking sample.june_10_15 sample.db1).1 = Raise DateConflict <->
   exists doc c s e,
     In doc (bookings sample.db1) /\ booking_interval doc = Some (c, s, e) /\
     c = car_id sample.june_10_15 /\
     le s (end_date sample.june_10_15) = true /\
     le (start_date sample.june_10_15) e = true).
Proof.
  split; [reflexivity|]. split; [vm_compute; reflexivity|].
  apply (date_conflict_iff_overlap sample.june_10_15 sample.db1).
  - reflexivity.
  - vm_compute. reflexivity.
  - reflexivity.
  - vm_compute. discriminate.
  - vm_compute. reflexivity.
Defined.

(** The store with no booking is well formed, and admission keeps stored
    bookings well formed: the hypothesis of C1 holds of every store the
    handler alone has filled. *)
Lemma wf_bookings_empty cars n :
  wf_bookings (mkdb {[ "car" := cars ]} n) = true.
Proof. reflexivity. Qed.

Lemma wf_bookings_step p db :
  valid_payload p = true -> wf_bookings db = true ->
  wf_bookings (create_booking p db).2 = true.
Proof.
  intros Hp Hwf. rewrite create_booking_eq.
  destruct (lt _ _); [exact Hwf|].
  destruct (31 <? span p); [exact Hwf|].
  destruct (car_exists db (car_id p)); [|exact Hwf].
  destruct (existsb _ (bookings db)); [exact Hwf|].
  cbn [snd]. unfold wf_bookings in *.
  rewrite bookings_inserted, forallb_app, Hwf. cbn [forallb andb].
  now rewrite booking_interval_new_doc.
Qed.

(** What [no_overlap] says: two different stored bookings of one car are
    apart, one ending before the other starts. *)
Lemma no_overlap_meaning db :
  no_overlap db = true <->
  forall (i j : nat) x y c s1 e1 s2 e2,
    i <> j -> bookings db !! i = Some x -> bookings db !! j = Some y ->
    booking_interval x = Some (c, s1, e1) -> booking_interval y = Some (c, s2, e2) ->
    lt e1 s2 = true \/ lt e2 s1 = true.
Proof.
  unfold no_overlap. rewrite pairwise_disjoint_lookup. split.
  - intros H i j x y c s1 e1 s2 e2 Hne Hi Hj Hx Hy.
    specialize (H i j x y Hne Hi Hj). rewrite docs_overlap_false in H. eauto.
  - intros H i j x y Hne Hi Hj. apply docs_overlap_false. eauto.
Qed.

(** One admission keeps the bookings of each car disjoint. *)
Lemma no_overlap_step p db :
  valid_payload p = true -> no_overlap db = true ->
  no_overlap (create_booking p db).2 = true.
Proof.
  intros Hp Hinv. rewrite create_booking_eq.
  destruct (lt _ _); [exact Hinv|].
  destruct (31 <? span p); [exact Hinv|].
  destruct (car_exists db (car_id p)); [|exact Hinv].
  destruct (existsb _ (bookings db)) eqn:E; [exact Hinv|].
  cbn [snd]. unfold no_overlap. rewrite bookings_inserted, pairwise_disjoint_snoc.
  apply andb_true_intro. split; [exact Hinv|].
  apply forallb_forall. intros doc Hin.
  destruct (docs_overlap doc (new_doc p db)) eqn:Hov; [|reflexivity].
  apply docs_overlap_new_doc in Hov; [|assumption].
  assert (existsb (matches (overlap_query (car_id p) (isoformat (start_date p))
                                          (isoformat (end_date p)))) (bookings db) = true)
    as E'; [|congruence].
  apply existsb_exists. eauto.
Qed.

Lemma no_overlap_submit_all ps : forall db,
  forallb valid_payload ps = true -> no_overlap db = true ->
  no_overlap (submit_all ps db) = true.
Proof.
  induction ps as [|q ps IH]; intros db Hps Hinv; [exact Hinv|].
  cbn [forallb] in Hps. apply andb_prop in Hps as [Hq Hps].
  cbn [submit_all foldl]. apply IH; [assumption|].
  now apply no_overlap_step.
Qed.

(** X19.  Per car identifier as it is spelled: starting from a store in
    which no two bookings under one car_id string overlap, the store after
    any sequence of admission calls has the same property, and so has the
    store after one more call: a successful admission appends its record and
    keeps the property, a failed one leaves the store as it was. *)
Theorem no_overlap_invariant (ps : list Booking) p db :
  no_overlap db = true ->
  forallb valid_payload ps = true ->
  valid_payload p = true ->
  no_overlap (submit_all ps db) = true /\
  match create_booking p (submit_all ps db) with
  | (Return _, db') =>
      bookings db' = bookings (submit_all ps db) ++ [new_doc p (submit_all ps db)] /\
      no_overlap db' = true
  | (Raise _, db') => db' = submit_all ps db
  end.
Proof.
  intros Hinv Hps Hp.
  pose proof (no_overlap_submit_all ps db Hps Hinv) as Hseq.
  split; [exact Hseq|].
  pose proof (no_overlap_step p _ Hp Hseq) as Hstep.
  revert Hstep. rewrite create_booking_eq.
  destruct (lt _ _); [reflexivity|].
  destruct (31 <? span p); [reflexivity|].
  destruct (car_exists _ (car_id p)); [|reflexivity].
  destruct (existsb _ _); [reflexivity|].
  cbn [snd]. intros Hstep. split; [apply bookings_inserted|exact Hstep].
Qed.

Lemma no_overlap_invariant_witness :
  no_overlap sample.db0 = true /\
  no_overlap (submit_all [sample.june_1_10; sample.june_10_15] sample.db0) = true /\
  match create_booking sample.june_11_15
          (submit_all [sample.june_1_10; sample.june_10_15] sample.db0) with
  | (Return _, db') =>
      bookings db' =
        bookings (submit_all [sample.june_1_10; sample.june_10_15] sample.db0) ++
        [new_doc sample.june_11_15
           (submit_all [sample.june_1_10; sample.june_10_15] sample.db0)] /\
      no_overlap db' = true
  | (Raise _, db') => db' = submit_all [sample.june_1_10; sample.june_10_15] sample.db0
  end.
Proof.
  split; [reflexivity|].
  apply (no_overlap_invariant [sample.june_1_10; sample.june_10_15]
           sample.june_11_15 sample.db0); reflexivity.
Defined.

(** C2, at the input where the code breaks it.  The invariant is per car:
    no two admitted bookings of one car overlap.  The car lookup goes by the
    parsed identifier, the overlap query by the identifier as it is spelled;
    so on the sample store, which holds no booking, car C is admitted for
    2024-06-01 to 2024-06-10 under its identifier in lower case and then
    again, for the same dates, under the same identifier in upper case, which
    resolves to the same car record.  The store then holds two overlapping
    bookings of car C, while no two bookings under one spelling overlap. *)
Theorem same_car_booked_twice :
  policy.no_overlap_per_car sample.db0 = true /\
  create_booking sample.june_1_10 sample.db0 =
    (Return {| id := "000000000000000000000001" |}, sample.db1) /\
  car_exists sample.db1 sample2.carC_upper = true /\
  car_of sample.db1 sample2.carC_upper = car_of sample.db1 sample.carC /\
  exists db2,
    create_booking (policy.with_car_id sample2.carC_upper sample.june_1_10) sample.db1 =
      (Return {| id := "000000000000000000000002" |}, db2) /\
    booking_interval <$> bookings db2 =
      [Some (sample.carC, mkdate 2024 6 1, mkdate 2024 6 10);
       Some (sample2.carC_upper, mkdate 2024 6 1, mkdate 2024 6 10)] /\
    policy.no_overlap_per_car db2 = false /\
    no_overlap db2 = true.
Proof.
  split; [reflexivity|]. split; [vm_compute; reflexivity|].
  split; [vm_compute; reflexivity|]. split; [vm_compute; reflexivity|].
  exists (create_booking (policy.with_car_id sample2.carC_upper sample.june_1_10) sample.db1).2.
  repeat split; vm_compute; reflexivity.
Qed.

(** C3.  With the inclusive span (end_date - start_date in days) + 1: a
    span of at most 31 days passes the length check and admission does not
    fail with RentalTooLong; a span of 32 days or more fails with
    RentalTooLong. *)
Theorem length_check p db :
  valid_payload p = true ->
  (span p <= 31 ->
   (31 <? span p) = false /\ (create_booking p db).1 <> Raise RentalTooLong) /\
  (32 <= span p -> create_booking p db = (Raise RentalTooLong, db)).
Proof.
  intros [Hs He]%andb_prop. split; intros Hspan.
  - split; [apply Z.ltb_ge; exact Hspan|].
    rewrite create_booking_eq.
    destruct (lt _ _); [discriminate|].
    destruct (Z.ltb_spec 31 (span p)) as [|_]; [lia|].
    destruct (car_exists db (car_id p)); [|discriminate].
    destruct (existsb _ _); discriminate.
  - rewrite create_booking_eq.
    rewrite (lt_toordinal _ _ He Hs).
    unfold span, sub_days in *.
    destruct (Z.ltb_spec (toordinal (end_date p)) (toordinal (start_date p))); [lia|].
    destruct (Z.ltb_spec 31 (toordinal (end_date p) - toordinal (start_date p) + 1));
      [reflexivity|lia].
Qed.

Lemma length_check_witness :
  valid_payload sample.days_32 = true /\
  span sample.days_32 = 32 /\
  create_booking sample.days_32 sample.db0 = (Raise RentalTooLong, sample.db0).
Proof.
  split; [reflexivity|]. split; [reflexivity|].
  apply (length_check sample.days_32 sample.db0); [reflexivity|].
  vm_compute. discriminate.
Defined.

(** C4.  A candidate whose end_date is strictly before its start_date
    fails with InvalidRange, whatever its car identifier and whatever the
    store holds; the store is left as it was. *)
Theorem end_before_start_invalid_range p db :
  lt (end_date p) (start_date p) = true ->
  create_booking p db = (Raise InvalidRange, db).
Proof.
  intros H. unfold create_booking. now rewrite H.
Qed.

Lemma end_before_start_invalid_range_witness :
  lt (end_date sample.reversed) (start_date sample.reversed) = true /\
  create_booking sample.reversed sample.db1 = (Raise InvalidRange, sample.db1).
Proof.
  split; [reflexivity|].
  apply (end_before_start_invalid_range sample.reversed sample.db1). reflexivity.
Defined.

(** C5, as the spec words it, fails: a candidate whose car identifier is
    malformed does not fail with CarNotFound when its dates are in the wrong
    order or span more than 31 days, because the date checks come first. *)
Lemma car_not_found_regardless_of_dates_counterexample :
  ~ (forall p db,
       car_exists db (car_id p) = false ->
       (create_booking p db).1 = Raise CarNotFound).
Proof.
  intros H.
  specialize (H sample.malformed_car_reversed sample.db1 eq_refl).
  vm_compute in H. discriminate.
Qed.

Example malformed_car_reversed_invalid_range :
  bson.is_valid (car_id sample.malformed_car_reversed) = false /\
  create_booking sample.malformed_car_reversed sample.db1 = (Raise InvalidRange, sample.db1).
Proof. split; vm_compute; reflexivity. Qed.

Example malformed_car_days_32_too_long :
  bson.is_valid (car_id sample.malformed_car_days_32) = false /\
  create_booking sample.malformed_car_days_32 sample.db1 = (Raise RentalTooLong, sample.db1).
Proof. split; vm_compute; reflexivity. Qed.

(** C5, amended.  A candidate that passes the date-order and length
    checks, and whose car identifier is malformed or resolves to no Car
    record, fails with CarNotFound, whatever bookings the store holds; the
    store is left as it was. *)
Theorem car_not_found_when_dates_pass p db :
  lt (end_date p) (start_date p) = false ->
  span p <= 31 ->
  car_exists db (car_id p) = false ->
  create_booking p db = (Raise CarNotFound, db).
Proof.
  intros Hord Hlen Hcar. rewrite create_booking_eq, Hord, Hcar.
  destruct (Z.ltb_spec 31 (span p)) as [|_]; [lia|reflexivity].
Qed.

Lemma car_not_found_when_dates_pass_witness :
  bson.is_valid (car_id sample.malformed_car) = false /\
  create_booking sample.malformed_car sample.db1 = (Raise CarNotFound, sample.db1).
Proof.
  split; [reflexivity|].
  apply (car_not_found_when_dates_pass sample.malformed_car sample.db1).
  - reflexivity.
  - vm_compute. discriminate.
  - reflexivity.
Defined.

(** The identifier is malformed exactly when the validity guard refuses
    it, and a malformed identifier resolves to no car. *)
Lemma malformed_no_car db cid :
  bson.is_valid cid = false -> car_exists db cid = false.
Proof.
  rewrite is_valid_init. unfold car_exists.
  destruct (bson.ObjectId_init cid); [reflexivity|discriminate].
Qed.

Lemma existsb_matches_false p db :
  valid_payload p = true ->
  (forall doc c s e,
     In doc (bookings db) -> booking_interval doc = Some (c, s, e) ->
     overlaps s e (start_date p) (end_date p) = true -> c <> car_id p) ->
  wf_bookings db = true ->
  existsb (matches (overlap_query (car_id p) (isoformat (start_date p))
                                  (isoformat (end_date p)))) (bookings db) = false.
Proof.
  intros Hp Hother Hwf.
  destruct (existsb _ (bookings db)) eqn:E; [|reflexivity]. exfalso.
  apply existsb_exists in E as (doc & Hin & Hm).
  destruct (wf_bookings_interval db doc Hwf Hin) as (c & s & e & Hi).
  rewrite (matches_overlap_query p doc c s e Hp Hi) in Hm.
  apply andb_prop in Hm as [Hc%String.eqb_eq Hov].
  exact (Hother doc c s e Hin Hi Hov Hc).
Qed.

(** C6.  A candidate whose dates pass the order and length checks and
    whose car exists is admitted when every stored booking whose dates
    overlap the candidate's is for another car: bookings of other cars,
    even with identical dates, do not count. *)
Theorem other_car_bookings_do_not_conflict p db :
  valid_payload p = true ->
  wf_bookings db = true ->
  lt (end_date p) (start_date p) = false ->
  span p <= 31 ->
  car_exists db (car_id p) = true ->
  (forall doc c s e,
     In doc (bookings db) -> booking_interval doc = Some (c, s, e) ->
     overlaps s e (start_date p) (end_date p) = true -> c <> car_id p) ->
  create_booking p db =
    (Return {| id := bson.to_str (generate (id_counter db)) |}, inserted p db).
Proof.
  intros Hp Hwf Hord Hlen Hcar Hother.
  rewrite create_booking_eq, Hord, Hcar, existsb_matches_false by assumption.
  destruct (Z.ltb_spec 31 (span p)) as [|_]; [lia|reflexivity].
Qed.

Lemma other_car_bookings_do_not_conflict_witness :
  (exists doc,
     In doc (bookings sample.db1) /\
     booking_interval doc =
       Some (sample.carC, start_date sample.june_1_10_D, end_date sample.june_1_10_D)) /\
  create_booking sample.june_1_10_D sample.db1 =
    (Return {| id := bson.to_str (generate (id_counter sample.db1)) |},
     inserted sample.june_1_10_D sample.db1).
Proof.
  split.
  - eexists. split; [left; reflexivity|]. vm_compute. reflexivity.
  - apply (other_car_bookings_do_not_conflict sample.june_1_10_D sample.db1).
    + reflexivity.
    + vm_compute. reflexivity.
    + reflexivity.
    + vm_compute. discriminate.
    + vm_compute. reflexivity.
    + intros doc c s e Hin Hi _.
      destruct Hin as [<-|[]]. vm_compute in Hi.
      injection Hi as <- _ _. discriminate.
Defined.

Lemma coll_inserted_other p db name :
  name <> "booking"%string -> coll (inserted p db) name = coll db name.
Proof.
  intros Hne. unfold inserted, coll, create_document. cbn.
  now rewrite lookup_insert_ne by congruence.
Qed.

(** C7.  A successful admission is one insert: the store afterwards is the
    store before with the candidate's record appended to the bookings by a
    single [create_document] call, every other collection being as it was.
    An admission that fails does so with one of the four error kinds and
    leaves the store as it was. *)
Theorem one_insert_on_success_none_on_error p db :
  match create_booking p db with
  | (Return r, db') =>
      db' = (create_document "booking" (record p) db).2 /\
      bookings db' = bookings db ++ [new_doc p db] /\
      id_counter db' = id_counter db + 1 /\
      (forall name, name <> "booking"%string -> coll db' name = coll db name)
  | (Raise e, db') =>
      db' = db /\
      (e = InvalidRange \/ e = RentalTooLong \/ e = CarNotFound \/ e = DateConflict)
  end.
Proof.
  rewrite create_booking_eq.
  destruct (lt _ _); [auto|].
  destruct (31 <? span p); [auto|].
  destruct (car_exists db (car_id p)); [|auto].
  destruct (existsb _ _); [auto 6|].
  split; [reflexivity|]. split; [apply bookings_inserted|].
  split; [reflexivity|]. intros name Hne. now apply coll_inserted_other.
Qed.

(** What a successful admission tells about the candidate and the store. *)
Lemma create_booking_Return p db r db' :
  create_booking p db = (Return r, db') ->
  lt (end_date p) (start_date p) = false /\
  (31 <? span p) = false /\
  car_exists db (car_id p) = true /\
  selected p db = [] /\
  r = {| id := bson.to_str (generate (id_counter db)) |} /\
  db' = inserted p db.
Proof.
  rewrite create_booking_eq.
  destruct (lt _ _); [discriminate|].
  destruct (31 <? span p); [discriminate|].
  destruct (car_exists db (car_id p)); [|discriminate].
  destruct (existsb _ _) eqn:E; [discriminate|].
  intros [= <- <-]. repeat split; try reflexivity.
  unfold selected. induction (bookings db) as [|d l IH]; [reflexivity|].
  cbn [existsb] in E. apply orb_false_elim in E as [Hd Hl].
  cbn [List.filter]. rewrite Hd. auto.
Qed.

Lemma selected_nil_existsb p db :
  selected p db = [] ->
  existsb (matches (overlap_query (car_id p) (isoformat (start_date p))
                                  (isoformat (end_date p)))) (bookings db) = false.
Proof.
  unfold selected. induction (bookings db) as [|d l IH]; [reflexivity|].
  cbn [List.filter existsb]. destruct (matches _ d); [discriminate|]. exact IH.
Qed.

Lemma car_exists_inserted p db cid :
  car_exists (inserted p db) cid = car_exists db cid.
Proof. unfold car_exists. now rewrite cars_inserted. Qed.

(** The record of an admitted candidate is selected by the overlap query
    of the same candidate. *)
Lemma new_doc_selected p db :
  valid_payload p = true ->
  lt (end_date p) (start_date p) = false ->
  In (new_doc p db) (selected p (inserted p db)).
Proof.
  intros Hp Hord. unfold selected. apply filter_In. split.
  - rewrite bookings_inserted. apply in_or_app. right. now left.
  - rewrite (matches_overlap_query p _ _ _ _ Hp (booking_interval_new_doc p db Hp)).
    unfold overlaps. now rewrite String.eqb_refl, (lt_false_le _ _ Hord).
Qed.

(** The same candidate submitted again is refused. *)
Lemma resubmission_conflicts p db r db1 :
  valid_payload p = true ->
  create_booking p db = (Return r, db1) ->
  create_booking p db1 = (Raise DateConflict, db1).
Proof.
  intros Hp (Hord & Hlen & Hcar & _ & _ & ->)%create_booking_Return.
  rewrite create_booking_eq, Hord, Hlen, car_exists_inserted, Hcar.
  destruct (existsb _ (bookings (inserted p db))) eqn:E; [reflexivity|].
  exfalso. pose proof (new_doc_selected p db Hp Hord) as Hin.
  unfold selected in Hin. apply filter_In in Hin as [Hin Hm].
  assert (existsb (matches (overlap_query (car_id p) (isoformat (start_date p))
                                          (isoformat (end_date p))))
                  (bookings (inserted p db)) = true) as E'; [|congruence].
  apply existsb_exists. eauto.
Qed.

(** C8.  Admission is not idempotent.  When a candidate has been admitted
    its record occupies the store, and the same candidate submitted again
    overlaps that record: the second submission is refused with DateConflict
    and adds nothing, so it neither gives the first answer again nor stores a
    second booking. *)
Theorem resubmission_not_idempotent p db r db1 :
  valid_payload p = true ->
  create_booking p db = (Return r, db1) ->
  bookings db1 = bookings db ++ [new_doc p db] /\
  In (new_doc p db) (selected p db1) /\
  create_booking p db1 = (Raise DateConflict, db1) /\
  (create_booking p db1).1 <> (create_booking p db).1.
Proof.
  intros Hp H1. pose proof (resubmission_conflicts p db r db1 Hp H1) as H2.
  rewrite H1, H2.
  apply create_booking_Return in H1 as (Hord & _ & _ & _ & _ & ->).
  split; [apply bookings_inserted|].
  split; [now apply new_doc_selected|].
  split; [reflexivity|discriminate].
Qed.

Lemma resubmission_not_idempotent_witness :
  create_booking sample.june_1_10 sample.db0 =
    (Return {| id := "000000000000000000000001" |}, sample.db1) /\
  bookings sample.db1 = bookings sample.db0 ++ [new_doc sample.june_1_10 sample.db0] /\
  In (new_doc sample.june_1_10 sample.db0) (selected sample.june_1_10 sample.db1) /\
  create_booking sample.june_1_10 sample.db1 = (Raise DateConflict, sample.db1) /\
  (create_booking sample.june_1_10 sample.db1).1 <>
    (create_booking sample.june_1_10 sample.db0).1.
Proof.
  split; [vm_compute; reflexivity|].
  apply (resubmission_not_idempotent sample.june_1_10 sample.db0
           {| id := "000000000000000000000001" |} sample.db1).
  - reflexivity.
  - vm_compute. reflexivity.
Defined.

(** C9.  A candidate that passes the four checks is persisted as its
    dumped fields with start_date and end_date replaced by their canonical
    zero-padded YYYY-MM-DD strings (ten characters that read back as the
    same dates); exactly that record, under the identifier the store assigns,
    is appended to the bookings, and the string form of that identifier is
    returned. *)
Theorem persist_canonical_record p db :
  valid_payload p = true ->
  lt (end_date p) (start_date p) = false ->
  span p <= 31 ->
  car_exists db (car_id p) = true ->
  selected p db = [] ->
  let oid := generate (id_counter db) in
  let doc : Doc :=
    <["_id" := VOid oid]>
      (<["end_date" := VStr (isoformat (end_date p))]>
         (<["start_date" := VStr (isoformat (start_date p))]> (model_dump p))) in
  exists db',
    create_booking p db = (Return {| id := bson.to_str oid |}, db') /\
    bookings db' = bookings db ++ [doc] /\
    doc !! "_id" = Some (VOid oid) /\
    doc !! "car_id" = Some (VStr (car_id p)) /\
    doc !! "start_date" = Some (VStr (isoformat (start_date p))) /\
    doc !! "end_date" = Some (VStr (isoformat (end_date p))) /\
    fromisoformat (isoformat (start_date p)) = Some (start_date p) /\
    fromisoformat (isoformat (end_date p)) = Some (end_date p) /\
    String.length (isoformat (start_date p)) = 10%nat /\
    String.length (isoformat (end_date p)) = 10%nat.
Proof.
  intros Hp Hord Hlen Hcar Hsel oid doc. exists (inserted p db).
  pose proof Hp as [Hs He]%andb_prop.
  split.
  { rewrite create_booking_eq, Hord, Hcar, selected_nil_existsb by assumption.
    destruct (Z.ltb_spec 31 (span p)) as [|_]; [lia|reflexivity]. }
  split; [apply bookings_inserted|].
  subst doc. unfold model_dump.
  repeat split;
    try (repeat (rewrite lookup_insert_eq || rewrite lookup_insert_ne by done);
         reflexivity).
  - now apply fromisoformat_isoformat.
  - now apply fromisoformat_isoformat.
Qed.

Lemma persist_canonical_record_witness :
  exists db',
    create_booking sample.june_1_10 sample.db0 =
      (Return {| id := "000000000000000000000001" |}, db') /\
    bookings db' =
      bookings sample.db0 ++
      [<["_id" := VOid (generate 1)]>
         (<["end_date" := VStr "2024-06-10"]>
            (<["start_date" := VStr "2024-06-01"]> (model_dump sample.june_1_10)))].
Proof.
  destruct (persist_canonical_record sample.june_1_10 sample.db0)
    as (db' & Hrun & Hdocs & _).
  - reflexivity.
  - reflexivity.
  - vm_compute. discriminate.
  - vm_compute. reflexivity.
  - vm_compute. reflexivity.
  - exists db'. split; [exact Hrun|exact Hdocs].
Defined.

(** C10.  The car-existence step never raises an identifier-parse error:
    on a malformed car_id the lookup returns no car without parsing it, so
    the handler fails with one of its own error kinds, and on a well-formed
    one the lookup is the query by the parsed identifier; no call of the
    handler ends in InvalidId. *)
Theorem car_lookup_never_raises_parse_error p db :
  (forall e, (find_car (car_id p) db).1 <> Raise (InvalidIdError e)) /\
  (forall e, (create_booking p db).1 <> Raise (InvalidIdError e)) /\
  match bson.ObjectId_init (car_id p) with
  | inl _ =>
      bson.is_valid (car_id p) = false /\
      find_car (car_id p) db = (Return None, db) /\
      ((create_booking p db).1 = Raise InvalidRange \/
       (create_booking p db).1 = Raise RentalTooLong \/
       (create_booking p db).1 = Raise CarNotFound)
  | inr oid =>
      bson.is_valid (car_id p) = true /\
      find_car (car_id p) db = find_one "car" (FEq "_id" (VOid oid)) db
  end.
Proof.
  split; [|split].
  - intros e. now rewrite find_car_eq.
  - intros e. rewrite create_booking_eq.
    destruct (lt _ _); [discriminate|].
    destruct (31 <? span p); [discriminate|].
    destruct (car_exists db (car_id p)); [|discriminate].
    destruct (existsb _ _); discriminate.
  - rewrite create_booking_eq, find_car_eq, is_valid_init.
    unfold car_exists, car_of.
    destruct (bson.ObjectId_init (car_id p)) as [e|oid].
    + split; [reflexivity|]. split; [reflexivity|].
      destruct (lt _ _); [auto|].
      destruct (31 <? span p); auto.
    + split; reflexivity.
Qed.

End Admission.

(** ** Further properties of the booking handler *)

Section Policy.
Import datetime datetime_facts isoformat_facts mongo schemas main admission policy.
Import store_facts interval_facts.

Implicit Types (p q : Booking) (db : Database) (doc : Doc).

Lemma create_booking_store p db :
  (create_booking p db).2 = db \/ (create_booking p db).2 = inserted p db.
Proof.
  rewrite create_booking_eq.
  destruct (lt _ _); [auto|]. destruct (31 <? span p); [auto|].
  destruct (car_exists db (car_id p)); [|auto].
  destruct (existsb _ _); auto.
Qed.

(** Admissions only append to the bookings and leave the cars alone. *)
Lemma submit_all_grows ps : forall db,
  cars (submit_all ps db) = cars db /\
  exists added, bookings (submit_all ps db) = bookings db ++ added.
Proof.
  induction ps as [|q ps IH]; intros db.
  - split; [reflexivity|]. exists []. now rewrite app_nil_r.
  - change (submit_all (q :: ps) db) with (submit_all ps (create_booking q db).2).
    destruct (IH (create_booking q db).2) as (Hc & added & Hb).
    destruct (create_booking_store q db) as [E|E]; rewrite E in *.
    + split; [exact Hc|]. now exists added.
    + rewrite cars_inserted in Hc. rewrite bookings_inserted in Hb.
      split; [exact Hc|]. exists (new_doc q db :: added).
      now rewrite Hb, <- app_assoc.
Qed.

Lemma car_exists_submit_all ps db cid :
  car_exists (submit_all ps db) cid = car_exists db cid.
Proof.
  unfold car_exists. now rewrite (proj1 (submit_all_grows ps db)).
Qed.

Lemma booking_ok_new_doc p db :
  valid_payload p = true ->
  lt (end_date p) (start_date p) = false ->
  (31 <? span p) = false ->
  booking_ok (new_doc p db) = true.
Proof.
  intros Hp Hord Hlen. unfold booking_ok.
  rewrite booking_interval_new_doc by assumption.
  rewrite (lt_false_le _ _ Hord). apply Z.ltb_ge in Hlen.
  apply Z.leb_le. exact Hlen.
Qed.

Lemma all_ok_step p db :
  valid_payload p = true -> all_ok db = true -> all_ok (create_booking p db).2 = true.
Proof.
  intros Hp Hok. rewrite create_booking_eq.
  destruct (lt _ _) eqn:Hord; [exact Hok|].
  destruct (31 <? span p) eqn:Hlen; [exact Hok|].
  destruct (car_exists db (car_id p)); [|exact Hok].
  destruct (existsb _ _); [exact Hok|].
  cbn [snd]. unfold all_ok in *.
  rewrite bookings_inserted, forallb_app, Hok. cbn [forallb andb].
  now rewrite booking_ok_new_doc.
Qed.

(** X1.  Every booking the handler stores keeps the rental policy: when
    the stored bookings all have canonical dates in order that span at most
    31 days, so have the stored bookings after any sequence of admission
    calls. *)
Theorem stored_bookings_within_policy (ps : list Booking) db :
  forallb valid_payload ps = true ->
  all_ok db = true ->
  all_ok (submit_all ps db) = true.
Proof.
  revert db. induction ps as [|q ps IH]; intros db Hps Hok; [exact Hok|].
  cbn [forallb] in Hps. apply andb_prop in Hps as [Hq Hps].
  change (submit_all (q :: ps) db) with (submit_all ps (create_booking q db).2).
  apply IH; [assumption|]. now apply all_ok_step.
Qed.

Lemma stored_bookings_within_policy_witness :
  length (bookings (submit_all [sample.june_1_10; sample.days_32; sample.june_11_15]
                               sample.db0)) = 2%nat /\
  all_ok (submit_all [sample.june_1_10; sample.days_32; sample.june_11_15]
                     sample.db0) = true.
Proof.
  split; [vm_compute; reflexivity|].
  apply (stored_bookings_within_policy
           [sample.june_1_10; sample.days_32; sample.june_11_15] sample.db0);
    reflexivity.
Defined.

(** X2.  A refusal is permanent: a candidate the handler refuses is
    refused with the same error after any further admission calls, since
    these only add bookings and never touch the cars. *)
Theorem refusal_is_permanent p (ps : list Booking) db e :
  (create_booking p db).1 = Raise e ->
  (create_booking p (submit_all ps db)).1 = Raise e.
Proof.
  rewrite !create_booking_eq, car_exists_submit_all.
  destruct (submit_all_grows ps db) as (_ & added & ->).
  destruct (lt _ _); [auto|]. destruct (31 <? span p); [auto|].
  destruct (car_exists db (car_id p)); [|auto].
  rewrite existsb_app.
  destruct (existsb _ (bookings db)); [auto|discriminate].
Qed.

Lemma refusal_is_permanent_witness :
  (create_booking sample.june_10_15 sample.db1).1 = Raise DateConflict /\
  (create_booking sample.june_10_15
     (submit_all [sample.june_11_15; sample.june_1_10_D] sample.db1)).1 =
  Raise DateConflict.
Proof.
  split; [vm_compute; reflexivity|].
  apply (refusal_is_permanent sample.june_10_15
           [sample.june_11_15; sample.june_1_10_D] sample.db1 DateConflict).
  vm_compute. reflexivity.
Defined.

Lemma clash_sym p q : clash p q = clash q p.
Proof.
  unfold clash, overlaps. rewrite String.eqb_sym. f_equal. apply andb_comm.
Qed.

(** The overlap query of [q] on the record stored for [p]. *)
Lemma matches_new_doc p q db :
  valid_payload p = true -> valid_payload q = true ->
  matches (overlap_query (car_id q) (isoformat (start_date q))
                         (isoformat (end_date q))) (new_doc p db) = clash p q.
Proof.
  intros Hp Hq.
  now rewrite (matches_overlap_query q _ _ _ _ Hq (booking_interval_new_doc p db Hp)).
Qed.

(** X3.  First come, first served: once a candidate is admitted, every
    later candidate for the same car identifier whose dates overlap its
    dates, and which passes the two date checks, is refused with
    DateConflict, whatever was admitted in between; the store is left as it
    was. *)
Theorem later_overlapping_candidate_refused p q (ps : list Booking) db r db1 :
  valid_payload p = true ->
  valid_payload q = true ->
  create_booking p db = (Return r, db1) ->
  clash p q = true ->
  lt (end_date q) (start_date q) = false ->
  span q <= 31 ->
  create_booking q (submit_all ps db1) = (Raise DateConflict, submit_all ps db1).
Proof.
  intros Hp Hq (_ & _ & Hcar & _ & _ & ->)%create_booking_Return Hclash Hord Hlen.
  pose proof Hclash as [Hc%String.eqb_eq _]%andb_prop.
  rewrite create_booking_eq, Hord, car_exists_submit_all, car_exists_inserted, <- Hc, Hcar.
  destruct (Z.ltb_spec 31 (span q)) as [|_]; [lia|].
  destruct (submit_all_grows ps (inserted p db)) as (_ & added & ->).
  rewrite bookings_inserted, !existsb_app. cbn [existsb].
  rewrite Hc, (matches_new_doc p q db Hp Hq), Hclash.
  now rewrite orb_true_r.
Qed.

Lemma later_overlapping_candidate_refused_witness :
  clash sample.june_1_10 sample2.june_5_8 = true /\
  create_booking sample2.june_5_8 (submit_all [sample.june_11_15] sample.db1) =
    (Raise DateConflict, submit_all [sample.june_11_15] sample.db1).
Proof.
  split; [reflexivity|].
  apply (later_overlapping_candidate_refused sample.june_1_10 sample2.june_5_8
           [sample.june_11_15] sample.db0 {| id := "000000000000000000000001" |} sample.db1).
  - reflexivity.
  - reflexivity.
  - vm_compute. reflexivity.
  - reflexivity.
  - reflexivity.
  - vm_compute. discriminate.
Defined.

(** A candidate admissible on a store stays admissible after a record it
    does not clash with is added. *)
Lemma admitted_after_compatible p q db r db1 :
  valid_payload p = true -> valid_payload q = true ->
  clash p q = false ->
  create_booking q db = (Return r, db1) ->
  create_booking q (inserted p db) =
    (Return {| id := bson.to_str (generate (id_counter db + 1)) |},
     inserted q (inserted p db)).
Proof.
  intros Hp Hq Hclash (Hord & Hlen & Hcar & Hsel%selected_nil_existsb & _ & _)%create_booking_Return.
  rewrite create_booking_eq, Hord, Hlen, car_exists_inserted, Hcar.
  rewrite bookings_inserted, existsb_app, Hsel. cbn [existsb].
  now rewrite (matches_new_doc p q db Hp Hq), Hclash.
Qed.

(** X4.  Candidates that do not clash can be admitted in either order:
    when each of two candidates is admissible on the store and they are for
    different car identifiers or for dates that do not overlap, each is
    admitted after the other, and both orders store the same two records,
    apart from their position and the identifiers drawn. *)
Theorem compatible_candidates_commute p q db rp dbp rq dbq :
  valid_payload p = true ->
  valid_payload q = true ->
  create_booking p db = (Return rp, dbp) ->
  create_booking q db = (Return rq, dbq) ->
  clash p q = false ->
  (exists r' db',
     create_booking q dbp = (Return r', db') /\
     bookings db' = bookings db ++
       [<["_id" := VOid (generate (id_counter db))]> (record p);
        <["_id" := VOid (generate (id_counter db + 1))]> (record q)]) /\
  (exists r' db',
     create_booking p dbq = (Return r', db') /\
     bookings db' = bookings db ++
       [<["_id" := VOid (generate (id_counter db))]> (record q);
        <["_id" := VOid (generate (id_counter db + 1))]> (record p)]).
Proof.
  intros Hp Hq Hrp Hrq Hclash.
  pose proof Hrp as (_ & _ & _ & _ & _ & ->)%create_booking_Return.
  pose proof Hrq as (_ & _ & _ & _ & _ & ->)%create_booking_Return.
  split.
  - rewrite (admitted_after_compatible p q db rq _ Hp Hq Hclash Hrq).
    eexists _, _. split; [reflexivity|].
    rewrite !bookings_inserted, <- app_assoc. reflexivity.
  - rewrite clash_sym in Hclash.
    rewrite (admitted_after_compatible q p db rp _ Hq Hp Hclash Hrp).
    eexists _, _. split; [reflexivity|].
    rewrite !bookings_inserted, <- app_assoc. reflexivity.
Qed.

Lemma compatible_candidates_commute_witness :
  clash sample.june_11_15 sample2.june_5_8_D = false /\
  (exists r' db',
     create_booking sample2.june_5_8_D (inserted sample.june_11_15 sample.db1) =
       (Return r', db') /\
     length (bookings db') = 3%nat) /\
  (exists r' db',
     create_booking sample.june_11_15 (inserted sample2.june_5_8_D sample.db1) =
       (Return r', db') /\
     length (bookings db') = 3%nat).
Proof.
  split; [reflexivity|].
  destruct (compatible_candidates_commute sample.june_11_15 sample2.june_5_8_D sample.db1
              {| id := "000000000000000000000002" |} (inserted sample.june_11_15 sample.db1)
              {| id := "000000000000000000000002" |} (inserted sample2.june_5_8_D sample.db1))
    as [(r1 & d1 & H1 & B1) (r2 & d2 & H2 & B2)].
  - reflexivity.
  - reflexivity.
  - vm_compute. reflexivity.
  - vm_compute. reflexivity.
  - reflexivity.
  - split.
    + exists r1, d1. split; [exact H1|]. rewrite B1. reflexivity.
    + exists r2, d2. split; [exact H2|]. rewrite B2. reflexivity.
Defined.

Lemma car_of_same_oid db cid cid' :
  bson.ObjectId_init cid' = bson.ObjectId_init cid ->
  car_of db cid' = car_of db cid /\ car_exists db cid' = car_exists db cid.
Proof.
  intros H. unfold car_of, car_exists. now rewrite H.
Qed.

(** X5.  The overlap check goes by the spelling of the car identifier, the
    car lookup by its parsed value.  When a candidate is admitted, the same
    candidate under another spelling of the identifier that parses to the
    same value (other letter case) resolves to the same car record and is
    admitted as well, over the same dates, as long as no stored booking
    under that spelling overlaps. *)
Theorem other_spelling_books_same_car_again p cid' db r db1 :
  valid_payload p = true ->
  create_booking p db = (Return r, db1) ->
  cid' <> car_id p ->
  bson.ObjectId_init cid' = bson.ObjectId_init (car_id p) ->
  selected (with_car_id cid' p) db = [] ->
  car_of db1 cid' = car_of db1 (car_id p) /\
  exists r' db2,
    create_booking (with_car_id cid' p) db1 = (Return r', db2) /\
    bookings db2 = bookings db ++ [new_doc p db; new_doc (with_car_id cid' p) db1] /\
    booking_interval (new_doc p db) = Some (car_id p, start_date p, end_date p) /\
    booking_interval (new_doc (with_car_id cid' p) db1) =
      Some (cid', start_date p, end_date p).
Proof.
  intros Hp Hrun Hne Hoid Hsel.
  split; [apply car_of_same_oid; exact Hoid|].
  assert (valid_payload (with_car_id cid' p) = true) as Hq by exact Hp.
  assert (clash p (with_car_id cid' p) = false) as Hclash.
  { unfold clash. cbn [car_id with_car_id].
    destruct (String.eqb_spec (car_id p) cid'); [congruence|reflexivity]. }
  pose proof Hrun as (Hord & Hlen & Hcar & _ & _ & ->)%create_booking_Return.
  assert (create_booking (with_car_id cid' p) db =
          (Return {| id := bson.to_str (generate (id_counter db)) |},
           inserted (with_car_id cid' p) db)) as Hrun'.
  { rewrite create_booking_eq. cbn [car_id start_date end_date with_car_id].
    change (span (with_car_id cid' p)) with (span p).
    rewrite Hord, Hlen, (proj2 (car_of_same_oid db _ _ Hoid)), Hcar.
    apply selected_nil_existsb in Hsel. cbn [car_id start_date end_date with_car_id] in Hsel.
    now rewrite Hsel. }
  rewrite (admitted_after_compatible p _ db _ _ Hp Hq Hclash Hrun').
  eexists _, _. split; [reflexivity|].
  split; [rewrite !bookings_inserted, <- app_assoc; reflexivity|].
  split; [now apply booking_interval_new_doc|].
  now rewrite (booking_interval_new_doc (with_car_id cid' p) _ Hq).
Qed.

Lemma other_spelling_books_same_car_again_witness :
  car_of sample.db1 sample2.carC_upper = car_of sample.db1 sample.carC /\
  exists r' db2,
    create_booking (with_car_id sample2.carC_upper sample.june_1_10) sample.db1 =
      (Return r', db2) /\
    bookings db2 =
      bookings sample.db0 ++
      [new_doc sample.june_1_10 sample.db0;
       new_doc (with_car_id sample2.carC_upper sample.june_1_10) sample.db1] /\
    booking_interval (new_doc sample.june_1_10 sample.db0) =
      Some (sample.carC, mkdate 2024 6 1, mkdate 2024 6 10) /\
    booking_interval (new_doc (with_car_id sample2.carC_upper sample.june_1_10) sample.db1) =
      Some (sample2.carC_upper, mkdate 2024 6 1, mkdate 2024 6 10).
Proof.
  apply (other_spelling_books_same_car_again sample.june_1_10 sample2.carC_upper
           sample.db0 {| id := "000000000000000000000001" |} sample.db1).
  - reflexivity.
  - vm_compute. reflexivity.
  - discriminate.
  - vm_compute. reflexivity.
  - vm_compute. reflexivity.
Defined.

(** X6.  The handler reads the car identifier and the two dates only:
    candidates that agree on these get the same answer on the same store,
    whatever their customer fields. *)
Theorem customer_fields_do_not_matter p q db :
  car_id p = car_id q ->
  start_date p = start_date q ->
  end_date p = end_date q ->
  (create_booking p db).1 = (create_booking q db).1.
Proof.
  intros Hc Hs He. rewrite !create_booking_eq. unfold span. rewrite Hc, Hs, He.
  destruct (lt _ _); [reflexivity|]. destruct (31 <? _); [reflexivity|].
  destruct (car_exists db (car_id q)); [|reflexivity].
  destruct (existsb _ _); reflexivity.
Qed.

Lemma customer_fields_do_not_matter_witness :
  customer_name sample.june_1_10 <> customer_name sample2.june_1_10_bob /\
  (create_booking sample.june_1_10 sample.db0).1 =
  (create_booking sample2.june_1_10_bob sample.db0).1.
Proof.
  split; [discriminate|].
  apply (customer_fields_do_not_matter sample.june_1_10 sample2.june_1_10_bob sample.db0);
    reflexivity.
Defined.

(** X7.  A candidate whose two dates lie in one calendar month, in order,
    passes both date checks: the handler fails with neither InvalidRange nor
    RentalTooLong. *)
Theorem within_one_month_passes_date_checks p db :
  valid_payload p = true ->
  year (start_date p) = year (end_date p) ->
  month (start_date p) = month (end_date p) ->
  day (start_date p) <= day (end_date p) ->
  1 <= span p <= 31 /\
  (create_booking p db).1 <> Raise InvalidRange /\
  (create_booking p db).1 <> Raise RentalTooLong.
Proof.
  intros [Hs He]%andb_prop Hy Hm Hd.
  pose proof (valid_bounds _ Hs) as (_ & Hms & Hds).
  pose proof (valid_bounds _ He) as (_ & Hme & Hde).
  assert (day (end_date p) <= 31) as Hmax.
  { revert Hde. unfold days_in_month.
    month_split (month (end_date p)) Hme; destruct (is_leap (year (end_date p)));
      cbn; lia. }
  assert (span p = day (end_date p) - day (start_date p) + 1) as Hspan.
  { unfold span, sub_days, toordinal, ymd2ord. rewrite Hy, Hm. lia. }
  assert (lt (end_date p) (start_date p) = false) as Hord.
  { unfold lt, cmp. rewrite Hy, Hm, !Z.compare_refl.
    destruct (Z.compare_spec (day (end_date p)) (day (start_date p))); try reflexivity. lia. }
  split; [lia|].
  rewrite create_booking_eq, Hord.
  destruct (Z.ltb_spec 31 (span p)) as [|_]; [lia|].
  destruct (car_exists db (car_id p)); [|split; discriminate].
  destruct (existsb _ _); split; discriminate.
Qed.

Lemma within_one_month_passes_date_checks_witness :
  span sample.days_31 = 31 /\
  (create_booking sample.days_31 sample.db0).1 <> Raise InvalidRange /\
  (create_booking sample.days_31 sample.db0).1 <> Raise RentalTooLong.
Proof.
  split; [reflexivity|].
  apply (within_one_month_passes_date_checks sample.days_31 sample.db0).
  - reflexivity.
  - reflexivity.
  - reflexivity.
  - vm_compute. discriminate.
Defined.

End Policy.

(** ** Identifiers and the listing endpoints *)

Section Listing.
Import datetime datetime_facts isoformat_facts mongo schemas main admission policy.
Import database endpoints store_facts interval_facts.

Implicit Types (p : Booking) (db : Database) (d doc : Doc) (o : bson.ObjectId).

Lemma hex_digit_val k :
  0 <= k < 16 ->
  bson.hex_val (bson.hex_digit k) = Some k /\ bson.is_space (bson.hex_digit k) = false.
Proof.
  intros H.
  assert (k = 0 \/ k = 1 \/ k = 2 \/ k = 3 \/ k = 4 \/ k = 5 \/ k = 6 \/ k = 7 \/
          k = 8 \/ k = 9 \/ k = 10 \/ k = 11 \/ k = 12 \/ k = 13 \/ k = 14 \/ k = 15)
    as Hk by lia.
  repeat (destruct Hk as [->|Hk]; [split; reflexivity|]).
  subst k. split; reflexivity.
Qed.

Lemma fromhex_to_str o :
  forallb (fun b => (0 <=? b) && (b <? 256)) o = true ->
  bson.fromhex (bson.to_str o) = Some o.
Proof.
  induction o as [|b o IH]; [reflexivity|].
  cbn [forallb]. intros [Hb Ho]%andb_prop.
  apply andb_prop in Hb as [Hb0%Z.leb_le Hb1%Z.ltb_lt].
  cbn [bson.to_str bson.fromhex].
  destruct (hex_digit_val (b / 16)) as [Hv1 Hs1]; [div_lia|].
  destruct (hex_digit_val (b mod 16)) as [Hv2 _]; [div_lia|].
  rewrite Hs1, Hv1, Hv2, (IH Ho). cbn. f_equal. f_equal. div_lia.
Qed.

Lemma length_to_str o : String.length (bson.to_str o) = (2 * length o)%nat.
Proof.
  induction o as [|b o IH]; [reflexivity|]. cbn [bson.to_str String.length length].
  rewrite IH. lia.
Qed.

(** The string form of a twelve-byte identifier parses back to it. *)
Lemma ObjectId_init_to_str o :
  oid_wf o = true -> bson.ObjectId_init (bson.to_str o) = inr o.
Proof.
  intros [Hlen%Nat.eqb_eq Hb]%andb_prop. unfold bson.ObjectId_init.
  rewrite length_to_str, Hlen. cbn. now rewrite fromhex_to_str.
Qed.

Lemma oid_wf_generate n : oid_wf (generate n) = true.
Proof.
  unfold oid_wf, generate. cbn [be_bytes length Nat.eqb andb forallb].
  repeat match goal with
         | |- context [?x mod 256] =>
             let H := fresh in
             pose proof (Z.mod_pos_bound x 256 ltac:(lia)) as H;
             generalize dependent (x mod 256); intros
         end.
  repeat (apply andb_true_intro; split); try reflexivity;
    try (apply Z.leb_le; lia); try (apply Z.ltb_lt; lia).
Qed.

Lemma car_exists_In db d o :
  In d (cars db) -> d !! "_id" = Some (VOid o) -> oid_wf o = true ->
  car_exists db (bson.to_str o) = true.
Proof.
  intros Hin Hid Hwf. unfold car_exists. rewrite ObjectId_init_to_str by assumption.
  apply existsb_exists. exists d. split; [assumption|].
  now apply bool_decide_eq_true_2.
Qed.

Lemma car_exists_not_CarNotFound p db :
  car_exists db (car_id p) = true -> (create_booking p db).1 <> Raise CarNotFound.
Proof.
  intros Hcar. rewrite create_booking_eq, Hcar.
  destruct (lt _ _); [discriminate|]. destruct (31 <? span p); [discriminate|].
  destruct (existsb _ _); discriminate.
Qed.

Lemma list_cars_eq db : list_cars db = (Return (car_out <$> cars db), db).
Proof. reflexivity. Qed.

Lemma car_out_lookup d :
  car_out d !! "_id" = None /\
  car_out d !! "id" = Some (VStr (py_str (default VNull (d !! "_id")))) /\
  forall k, k <> "_id"%string -> k <> "id"%string -> car_out d !! k = d !! k.
Proof.
  unfold car_out. split; [|split].
  - rewrite lookup_insert_ne by done. apply lookup_delete_eq.
  - apply lookup_insert_eq.
  - intros k H1 H2. rewrite lookup_insert_ne by congruence.
    now rewrite lookup_delete_ne by congruence.
Qed.

(** X8.  [list_cars] returns one entry per stored car, in the order of
    the store, and leaves the store as it is.  An entry has no ["_id"]; its
    ["id"] is the string form of the stored ["_id"], and the text None when
    the car has none; every other field is as stored (a stored field named
    ["id"] is replaced). *)
Theorem list_cars_entries db :
  exists out,
    list_cars db = (Return out, db) /\
    length out = length (cars db) /\
    forall (i : nat) d,
      cars db !! i = Some d ->
      exists e,
        out !! i = Some e /\
        e !! "_id" = None /\
        e !! "id" = Some (VStr (match d !! "_id" with
                                | Some v => py_str v
                                | None => "None"
                                end)) /\
        forall k, k <> "_id"%string -> k <> "id"%string -> e !! k = d !! k.
Proof.
  exists (car_out <$> cars db). split; [reflexivity|].
  split; [apply length_fmap|].
  intros i d Hi. exists (car_out d).
  split; [now rewrite list_lookup_fmap, Hi|].
  destruct (car_out_lookup d) as (H1 & H2 & H3).
  split; [exact H1|]. split; [|exact H3].
  rewrite H2. now destruct (d !! "_id").
Qed.

(** X9.  The identifier [list_cars] shows for a car stored under a
    twelve-byte ObjectId is one the booking handler accepts: a candidate
    that names it as its car passes the car-existence check. *)
Theorem listed_car_id_is_bookable p db d o :
  In d (cars db) ->
  d !! "_id" = Some (VOid o) ->
  oid_wf o = true ->
  car_out d !! "id" = Some (VStr (car_id p)) ->
  (exists out, list_cars db = (Return out, db) /\ In (car_out d) out) /\
  bson.is_valid (car_id p) = true /\
  car_exists db (car_id p) = true /\
  (create_booking p db).1 <> Raise CarNotFound.
Proof.
  intros Hin Hid Hwf Hshown.
  destruct (car_out_lookup d) as (_ & Hout & _).
  rewrite Hout, Hid in Hshown. cbn in Hshown. injection Hshown as Hcid.
  split.
  { exists (car_out <$> cars db). split; [reflexivity|]. now apply in_map. }
  assert (car_exists db (car_id p) = true) as Hcar.
  { rewrite <- Hcid. now apply (car_exists_In db d o). }
  split; [|split; [exact Hcar|now apply car_exists_not_CarNotFound]].
  rewrite is_valid_init, <- Hcid, ObjectId_init_to_str by assumption. reflexivity.
Qed.

Lemma listed_car_id_is_bookable_witness :
  (exists out, list_cars sample.db1 = (Return out, sample.db1) /\
               In (car_out (sample.car_doc sample.carC "Skoda")) out) /\
  bson.is_valid (car_id sample.june_11_15) = true /\
  car_exists sample.db1 (car_id sample.june_11_15) = true /\
  (create_booking sample.june_11_15 sample.db1).1 <> Raise CarNotFound.
Proof.
  apply (listed_car_id_is_bookable sample.june_11_15 sample.db1
           (sample.car_doc sample.carC "Skoda")
           [100; 183; 240; 194; 161; 211; 228; 245; 166; 183; 200; 217]).
  - left. vm_compute. reflexivity.
  - vm_compute. reflexivity.
  - reflexivity.
  - vm_compute. reflexivity.
Defined.

Lemma cars_add_car car db :
  cars (add_car car db).2 = cars db ++ [<["_id" := VOid (generate (id_counter db))]> car] /\
  bookings (add_car car db).2 = bookings db.
Proof.
  unfold add_car, cars, bookings, coll, create_document, mbind, M_bind, mret, M_ret. cbn.
  rewrite lookup_insert_eq. now rewrite lookup_insert_ne by done.
Qed.

(** X10.  Adding a car and booking it compose: [add_car] appends the
    document to the cars under a fresh identifier, leaves the bookings
    alone, and returns the identifier in a form the booking handler accepts,
    so that no candidate naming it fails with CarNotFound. *)
Theorem added_car_is_bookable (car : Doc) db :
  exists cid,
    (add_car car db).1 = Return {[ "id" := VStr cid ]} /\
    cars (add_car car db).2 =
      cars db ++ [<["_id" := VOid (generate (id_counter db))]> car] /\
    bookings (add_car car db).2 = bookings db /\
    bson.is_valid cid = true /\
    forall p, car_id p = cid -> (create_booking p (add_car car db).2).1 <> Raise CarNotFound.
Proof.
  exists (bson.to_str (generate (id_counter db))).
  destruct (cars_add_car car db) as [Hcars Hbook].
  split; [reflexivity|]. split; [exact Hcars|]. split; [exact Hbook|].
  split.
  - now rewrite is_valid_init, ObjectId_init_to_str by apply oid_wf_generate.
  - intros p Hp. apply car_exists_not_CarNotFound. rewrite Hp.
    apply (car_exists_In _ (<["_id" := VOid (generate (id_counter db))]> car)
                         (generate (id_counter db))).
    + rewrite Hcars. apply in_or_app. right. now left.
    + apply lookup_insert_eq.
    + apply oid_wf_generate.
Qed.

Lemma pop_ids_all (docs : list Doc) :
  forallb has_id docs = true -> pop_ids docs = inr (car_out <$> docs).
Proof.
  induction docs as [|d docs IH]; [reflexivity|].
  cbn [forallb]. intros [Hd Hrest]%andb_prop.
  cbn [pop_ids]. unfold has_id in Hd. rewrite fmap_cons.
  destruct (d !! "_id") as [v|] eqn:E; [|discriminate].
  rewrite (IH Hrest). f_equal. f_equal. unfold car_out. now rewrite E.
Qed.

Lemma pop_ids_missing (docs : list Doc) :
  forallb has_id docs = false -> pop_ids docs = inl (KeyError "_id").
Proof.
  induction docs as [|d docs IH]; [discriminate|].
  cbn [forallb pop_ids]. unfold has_id at 1.
  destruct (d !! "_id") as [v|]; [|reflexivity].
  cbn [andb]. intros H. now rewrite (IH H).
Qed.

(** X11.  [list_bookings] pops ["_id"] where [list_cars] gets it: it ends
    in KeyError as soon as one stored booking has no ["_id"], and otherwise
    returns for every stored booking the entry [list_cars] would build, in
    the order of the store; the store is left as it is either way. *)
Theorem list_bookings_result db :
  (list_bookings db).2 = db /\
  (list_bookings db).1 =
    if forallb has_id (bookings db) then inr (car_out <$> bookings db)
    else inl (KeyError "_id").
Proof.
  split; [reflexivity|].
  unfold list_bookings, get_documents. cbn [fst]. fold (bookings db).
  destruct (forallb has_id (bookings db)) eqn:E.
  - now apply pop_ids_all.
  - now apply pop_ids_missing.
Qed.

Lemma has_id_new_doc p db : has_id (new_doc p db) = true.
Proof. unfold has_id, new_doc. now rewrite lookup_insert_eq. Qed.

Lemma has_id_submit_all ps : forall db,
  forallb has_id (bookings db) = true ->
  forallb has_id (bookings (submit_all ps db)) = true.
Proof.
  induction ps as [|q ps IH]; intros db H; [exact H|].
  change (submit_all (q :: ps) db) with (submit_all ps (create_booking q db).2).
  apply IH. rewrite create_booking_eq.
  destruct (lt _ _); [exact H|]. destruct (31 <? span q); [exact H|].
  destruct (car_exists db (car_id q)); [|exact H].
  destruct (existsb _ _); [exact H|].
  cbn [snd]. rewrite bookings_inserted, forallb_app, H. cbn [forallb].
  now rewrite has_id_new_doc.
Qed.

(** X12.  On a store whose bookings were all written by the booking
    handler, [list_bookings] does not fail: when every stored booking has an
    ["_id"], then after any sequence of admission calls the listing
    succeeds, with one entry per stored booking. *)
Theorem list_bookings_succeeds_after_admissions (ps : list Booking) db :
  forallb has_id (bookings db) = true ->
  exists out,
    list_bookings (submit_all ps db) = (inr out, submit_all ps db) /\
    length out = length (bookings (submit_all ps db)).
Proof.
  intros H. apply (has_id_submit_all ps) in H.
  exists (car_out <$> bookings (submit_all ps db)).
  split; [|apply length_fmap].
  unfold list_bookings, get_documents. fold (bookings (submit_all ps db)).
  now rewrite pop_ids_all.
Qed.

Lemma list_bookings_succeeds_after_admissions_witness :
  exists out,
    list_bookings (submit_all [sample.june_1_10; sample.june_10_15; sample.june_11_15]
                              sample.db0) =
      (inr out, submit_all [sample.june_1_10; sample.june_10_15; sample.june_11_15]
                           sample.db0) /\
    length out =
      length (bookings (submit_all [sample.june_1_10; sample.june_10_15; sample.june_11_15]
                                   sample.db0)).
Proof.
  apply (list_bookings_succeeds_after_admissions
           [sample.june_1_10; sample.june_10_15; sample.june_11_15] sample.db0).
  reflexivity.
Defined.

(** X13.  What is admitted is listed: after a successful admission,
    [list_bookings] returns the former listing followed by one entry, whose
    ["id"] is the identifier the admission returned, whose car is the
    candidate's, whose dates are the candidate's in canonical form, and which
    has no ["_id"]. *)
Theorem admitted_booking_is_listed p db r db1 (before : list Doc) :
  create_booking p db = (Return r, db1) ->
  (list_bookings db).1 = inr before ->
  exists entry,
    list_bookings db1 = (inr (before ++ [entry]), db1) /\
    entry !! "id" = Some (VStr (id r)) /\
    entry !! "_id" = None /\
    entry !! "car_id" = Some (VStr (car_id p)) /\
    entry !! "start_date" = Some (VStr (isoformat (start_date p))) /\
    entry !! "end_date" = Some (VStr (isoformat (end_date p))).
Proof.
  intros (_ & _ & _ & _ & -> & ->)%create_booking_Return Hbefore.
  destruct (list_bookings_result db) as [_ Hres]. rewrite Hres in Hbefore.
  destruct (forallb has_id (bookings db)) eqn:Hids; [|discriminate].
  injection Hbefore as <-.
  exists (car_out (new_doc p db)). split.
  - unfold list_bookings, get_documents. fold (bookings (inserted p db)).
    rewrite pop_ids_all.
    + now rewrite bookings_inserted, fmap_app.
    + rewrite bookings_inserted, forallb_app, Hids. cbn [forallb].
      now rewrite has_id_new_doc.
  - destruct (car_out_lookup (new_doc p db)) as (H1 & H2 & H3).
    split; [|split; [exact H1|]].
    { rewrite H2. unfold new_doc. now rewrite lookup_insert_eq. }
    rewrite !H3 by done. unfold new_doc, record, model_dump.
    repeat split;
      repeat (rewrite lookup_insert_eq || rewrite lookup_insert_ne by done);
      reflexivity.
Qed.

Lemma admitted_booking_is_listed_witness :
  exists entry,
    list_bookings sample.db1 = (inr ([] ++ [entry]), sample.db1) /\
    entry !! "id" = Some (VStr "000000000000000000000001") /\
    entry !! "_id" = None /\
    entry !! "car_id" = Some (VStr sample.carC) /\
    entry !! "start_date" = Some (VStr "2024-06-01") /\
    entry !! "end_date" = Some (VStr "2024-06-10").
Proof.
  apply (admitted_booking_is_listed sample.june_1_10 sample.db0
           {| id := "000000000000000000000001" |} sample.db1 []).
  - vm_compute. reflexivity.
  - reflexivity.
Defined.

End Listing.

(** ** Seeding *)

Section Seeding.
Import mongo admission policy database endpoints.

Implicit Types (db : Database) (sample : list Doc).

Lemma create_document_car (s : Doc) db :
  cars (create_document "car" s db).2 =
    cars db ++ [<["_id" := VOid (generate (id_counter db))]> s] /\
  bookings (create_document "car" s db).2 = bookings db /\
  id_counter (create_document "car" s db).2 = id_counter db + 1.
Proof.
  unfold cars, bookings, coll, create_document. cbn [snd collections id_counter].
  rewrite lookup_insert_eq. now rewrite lookup_insert_ne by done.
Qed.

(** The cars the seeding loop appends: the samples, each under the next
    identifier of the store. *)
Lemma create_all_eq sample : forall db,
  exists db',
    create_all sample db = (Return tt, db') /\
    cars db' = cars db ++
      imap (fun i s => <["_id" := VOid (generate (id_counter db + Z.of_nat i))]> s) sample /\
    bookings db' = bookings db.
Proof.
  induction sample as [|s rest IH]; intros db.
  - exists db. split; [reflexivity|]. split; [now rewrite app_nil_r|reflexivity].
  - destruct (IH (create_document "car" s db).2) as (db' & Hrun & Hcars & Hbook).
    destruct (create_document_car s db) as (Hc1 & Hb1 & Hn1).
    exists db'. split; [exact Hrun|]. rewrite Hcars, Hbook, Hc1, Hb1, Hn1.
    split; [|reflexivity]. rewrite <- app_assoc. f_equal. cbn [imap app].
    rewrite Z.add_0_r. f_equal. apply imap_ext. intros i x _. cbn [compose].
    replace (id_counter db + 1 + Z.of_nat i) with (id_counter db + Z.of_nat (S i)) by lia.
    reflexivity.
Qed.

Lemma seed_cars_nonempty sample db :
  cars db <> [] ->
  seed_cars sample db = (Return {[ "status" := VStr "already-seeded" ]}, db).
Proof.
  intros Hne. unfold seed_cars, count_documents, mbind, M_bind. fold (cars db).
  destruct (cars db) as [|c l]; [congruence|].
  destruct (Z.ltb_spec 0 (Z.of_nat (length (c :: l)))) as [_|H]; [reflexivity|].
  cbn [length] in H. lia.
Qed.

Lemma seed_cars_empty sample db :
  cars db = [] ->
  exists db',
    seed_cars sample db =
      (Return {[ "status" := VStr "seeded"; "count" := VInt (Z.of_nat (length sample)) ]},
       db') /\
    cars db' =
      imap (fun i s => <["_id" := VOid (generate (id_counter db + Z.of_nat i))]> s) sample /\
    bookings db' = bookings db.
Proof.
  intros Hempty. destruct (create_all_eq sample db) as (db' & Hrun & Hcars & Hbook).
  exists db'. rewrite Hempty in Hcars. split; [|split; assumption].
  unfold seed_cars, count_documents, mbind, M_bind. fold (cars db).
  rewrite Hempty. change (0 <? Z.of_nat (length [])) with false. cbv beta iota.
  now rewrite Hrun.
Qed.

(** X14.  Seeding is idempotent: whatever the store, after one call of
    [seed_cars] with a sample list that is not empty a second call answers
    already-seeded and changes nothing; and a call on a store that holds any
    car at all changes nothing in the first place. *)
Theorem seed_cars_idempotent sample db :
  sample <> [] ->
  (cars db <> [] ->
   seed_cars sample db = (Return {[ "status" := VStr "already-seeded" ]}, db)) /\
  seed_cars sample (seed_cars sample db).2 =
    (Return {[ "status" := VStr "already-seeded" ]}, (seed_cars sample db).2).
Proof.
  intros Hsample. split; [apply seed_cars_nonempty|].
  apply seed_cars_nonempty.
  destruct (cars db) as [|c l] eqn:E.
  - destruct (seed_cars_empty sample db E) as (db' & -> & Hcars & _). cbn [snd].
    rewrite Hcars. destruct sample; [congruence|discriminate].
  - rewrite seed_cars_nonempty by (rewrite E; discriminate). cbn [snd].
    rewrite E. discriminate.
Qed.

Lemma seed_cars_idempotent_witness :
  (seed_cars [sample2.octavia; sample2.golf] sample2.empty_db).1 =
    Return {[ "status" := VStr "seeded"; "count" := VInt 2 ]} /\
  seed_cars [sample2.octavia; sample2.golf]
            (seed_cars [sample2.octavia; sample2.golf] sample2.empty_db).2 =
    (Return {[ "status" := VStr "already-seeded" ]},
     (seed_cars [sample2.octavia; sample2.golf] sample2.empty_db).2).
Proof.
  split; [vm_compute; reflexivity|].
  apply (seed_cars_idempotent [sample2.octavia; sample2.golf] sample2.empty_db).
  discriminate.
Defined.

(** X15.  Seeding a store without cars stores every sample, in order, each
    under its own fresh identifier, reports their number, and leaves the
    bookings alone; [list_cars] then shows one entry per sample, with the
    fields of the sample. *)
Theorem seed_cars_stores_every_sample sample db :
  cars db = [] ->
  exists db' out,
    seed_cars sample db =
      (Return {[ "status" := VStr "seeded"; "count" := VInt (Z.of_nat (length sample)) ]},
       db') /\
    bookings db' = bookings db /\
    list_cars db' = (Return out, db') /\
    length out = length sample /\
    forall (i : nat) s,
      sample !! i = Some s ->
      exists e,
        out !! i = Some e /\
        e !! "id" = Some (VStr (bson.to_str (generate (id_counter db + Z.of_nat i)))) /\
        forall k, k <> "_id"%string -> k <> "id"%string -> e !! k = s !! k.
Proof.
  intros Hempty. destruct (seed_cars_empty sample db Hempty) as (db' & Hrun & Hcars & Hbook).
  exists db', (car_out <$> cars db').
  split; [exact Hrun|]. split; [exact Hbook|]. split; [reflexivity|].
  rewrite Hcars. split; [now rewrite length_fmap, length_imap|].
  intros i s Hi.
  exists (car_out (<["_id" := VOid (generate (id_counter db + Z.of_nat i))]> s)).
  split; [now rewrite list_lookup_fmap, list_lookup_imap, Hi|].
  unfold car_out. split.
  - now rewrite lookup_insert_eq, lookup_insert_eq.
  - intros k H1 H2. rewrite lookup_insert_ne by congruence.
    rewrite lookup_delete_ne by congruence. now rewrite lookup_insert_ne by congruence.
Qed.

Lemma seed_cars_stores_every_sample_witness :
  exists db' out,
    seed_cars [sample2.octavia; sample2.golf] sample2.empty_db =
      (Return {[ "status" := VStr "seeded"; "count" := VInt 2 ]}, db') /\
    list_cars db' = (Return out, db') /\
    length out = 2%nat.
Proof.
  destruct (seed_cars_stores_every_sample [sample2.octavia; sample2.golf] sample2.empty_db)
    as (db' & out & Hrun & _ & Hlist & Hlen & _).
  - reflexivity.
  - exists db', out. split; [exact Hrun|]. split; [exact Hlist|exact Hlen].
Defined.

End Seeding.

(** ** The database test endpoint *)

Section Status.
Import status.

Implicit Types (w : World) (s t : string).

Lemma str_len_take n : forall s, (str_len (str_take n s) <= n)%nat.
Proof.
  induction n as [|n IHn]; intros s; induction s as [|c s IHs]; cbn [str_take str_len];
    try lia; destruct (is_continuation c) eqn:E; cbn [str_len]; rewrite ?E; try lia.
  specialize (IHn s). lia.
Qed.

Lemma str_len_app s t : str_len (s +:+ t) = (str_len s + str_len t)%nat.
Proof.
  induction s as [|c s IH]; [reflexivity|].
  change (String c s +:+ t) with (String c (s +:+ t)). cbn [str_len].
  destruct (is_continuation c); rewrite IH; reflexivity.
Qed.

(** X16.  What [test_database] reports hangs together, whatever [db] is
    and does: at most ten collections are listed; collections are listed
    only under the verdict Connected & Working, which comes only with the
    connection status Connected; and the verdict it starts from, Not
    Available, is never the one returned. *)
Theorem test_database_report_is_consistent w :
  (length (collections (test_database w)) <= 10)%nat /\
  (collections (test_database w) <> [] ->
   database (test_database w) = "✅ Connected & Working"%string) /\
  (database (test_database w) = "✅ Connected & Working"%string ->
   connection_status (test_database w) = "Connected"%string) /\
  database (test_database w) <> "❌ Not Available"%string /\
  backend (test_database w) = "✅ Running"%string.
Proof.
  unfold test_database, outer_try, inner_try.
  destruct (db w) as [h|]; [|cbn; repeat split; try lia; try congruence; discriminate].
  destruct (name h) as [|n|msg];
    destruct (list_collection_names h) as [err|names]; cbn;
    repeat split; try lia; try congruence; try discriminate;
    rewrite length_take; lia.
Qed.

(** X17.  However long the text of an exception, the verdict
    [test_database] returns is at most 75 characters long: at most 50
    characters of the text are kept. *)
Theorem test_database_verdict_is_short w :
  (str_len (database (test_database w)) <= 75)%nat.
Proof.
  assert (forall head msg,
            (str_len head <= 25)%nat ->
            (str_len (head +:+ str_take 50 msg) <= 75)%nat) as Hcut.
  { intros head msg Hhead. rewrite str_len_app.
    pose proof (str_len_take 50 msg). lia. }
  unfold test_database, outer_try, inner_try.
  destruct (db w) as [h|]; [|vm_compute; lia].
  destruct (name h) as [|n|msg];
    destruct (list_collection_names h) as [err|names];
    cbn [database set_database set_database_url set_database_name set_collections
         set_connection_status];
    try (apply Hcut; vm_compute; lia);
    vm_compute; lia.
Qed.

(** X18.  The two fields on the configuration depend on the environment
    alone: database_url reads Set exactly when DATABASE_URL is set to a text
    that is not empty, and Not Set otherwise, and likewise database_name
    with DATABASE_NAME; the name of [db] and the word Configured are never
    returned. *)
Theorem test_database_reports_environment w :
  (database_url (test_database w) = Some "✅ Set"%string <->
   exists v, getenv w "DATABASE_URL" = Some v /\ v <> EmptyString) /\
  (database_url (test_database w) = Some "❌ Not Set"%string <->
   getenv w "DATABASE_URL" = None \/ getenv w "DATABASE_URL" = Some EmptyString) /\
  (database_name (test_database w) = Some "✅ Set"%string <->
   exists v, getenv w "DATABASE_NAME" = Some v /\ v <> EmptyString) /\
  (database_name (test_database w) = Some "❌ Not Set"%string <->
   getenv w "DATABASE_NAME" = None \/ getenv w "DATABASE_NAME" = Some EmptyString).
Proof.
  unfold test_database, env_set.
  cbn [database_url database_name set_database_url set_database_name].
  destruct (getenv w "DATABASE_URL") as [u|]; destruct (getenv w "DATABASE_NAME") as [n|];
    try destruct (String.eqb_spec u EmptyString) as [->|Hu];
    try destruct (String.eqb_spec n EmptyString) as [->|Hn];
    cbn [negb]; repeat split;
    try discriminate; try (intros _; eauto; fail);
    try (intros (v & [= <-] & Hv); congruence);
    try (intros (v & [=] & _); fail);
    try (intros [[=]|[= ->]]; congruence);
    try (intros [[=]|[=]]; fail).
Qed.

End Status.
